(** * osl-schema: category traversal and ontology alignment

    A shallow embedding of [src/osl_schema/gather_categories.py] and of the
    per-entity loop of [src/osl_schema/add_ontology_matches.py].

    The wiki client ([osw_obj.mw_site.ask]) and the RDF graph ([g.query]) are
    external collaborators: they are taken as functions held by the objects
    the code calls them on.  Python dictionaries are [gmap]s with string
    keys, Python lists are lists, Python integers are [Z].  Effects (the ask
    queries sent, the warnings logged, the lines printed, the exceptions
    raised) are threaded through a small state-and-error monad. *)

From Stdlib Require Import Ascii.
From stdpp Require Import gmap strings list pretty.

Open Scope string_scope.
Open Scope list_scope.
Open Scope nat_scope.

(** ** Python values and dictionaries *)

(** The values that occur in the dictionaries of this program: [None] and
    [str]. *)
Inductive pyval : Type :=
  | PyNone
  | PyStr (s : string).

#[global] Instance pyval_eq_dec : EqDecision pyval.
Proof. solve_decision. Defined.

(** Truthiness ([if fpt:]): [None] and the empty string are falsy. *)
Definition truthy (v : pyval) : bool :=
  match v with
  | PyNone => false
  | PyStr s => negb (String.eqb s "")
  end.

(** [str(v)], as an f-string renders a value. *)
Definition py_str (v : pyval) : string :=
  match v with
  | PyNone => "None"
  | PyStr s => s
  end.

(** [d.get(key)]: [None] when the key is absent. *)
Definition dict_get (key : string) (d : gmap string pyval) : pyval :=
  default PyNone (d !! key).

(** ** Strings *)

Module Str.

(** [text.startswith(prefix)]. *)
Fixpoint startswith (prefix text : string) : bool :=
  match prefix, text with
  | EmptyString, _ => true
  | String a p, String b t => if Ascii.eqb a b then startswith p t else false
  | String _ _, EmptyString => false
  end.

(** The scan of [text.replace(old, new)] for a non-empty [old]: [skip]
    counts the characters of a matched occurrence still to be passed. *)
Fixpoint replace_scan (old new : string) (skip : nat) (text : string) : string :=
  match text with
  | EmptyString => EmptyString
  | String c rest =>
      match skip with
      | S k => replace_scan old new k rest
      | O =>
          if startswith old text
          then new +:+ replace_scan old new (String.length old - 1) rest
          else String c (replace_scan old new 0 rest)
      end
  end.

(** With an empty [old], Python puts [new] before every character and at
    the end. *)
Fixpoint interleave (new text : string) : string :=
  match text with
  | EmptyString => new
  | String c rest => new +:+ String c (interleave new rest)
  end.

(** [text.replace(old, new)]. *)
Definition replace (text old new : string) : string :=
  match old with
  | EmptyString => interleave new text
  | String _ _ => replace_scan old new 0 text
  end.

(** The character class [[A-Za-z_]]. *)
Definition is_word (c : ascii) : bool :=
  let n := Ascii.nat_of_ascii c in
  ((65 <=? n) && (n <=? 90)) || ((97 <=? n) && (n <=? 122)) || (n =? 95).

(** The longest prefix of word characters, and what follows it. *)
Fixpoint span_word (text : string) : string * string :=
  match text with
  | EmptyString => (EmptyString, EmptyString)
  | String c rest =>
      if is_word c
      then let '(w, tl) := span_word rest in (String c w, tl)
      else (EmptyString, text)
  end.

(** One match of the group [(\|\?[A-Za-z_]*=([A-Za-z_]+))] at the head of
    [text]: the alias captured by the inner group and the number of
    characters matched. *)
Definition match_printout (text : string) : option (string * nat) :=
  match text with
  | String "|" (String "?" t1) =>
      let '(field, t2) := span_word t1 in
      match t2 with
      | String "=" t3 =>
          let '(alias, _) := span_word t3 in
          match alias with
          | EmptyString => None
          | String _ _ =>
              Some (alias, 2 + String.length field + 1 + String.length alias)
          end
      | _ => None
      end
  | _ => None
  end.

(** [[m[1] for m in re.findall(r".*?(\|\?[A-Za-z_]*=([A-Za-z_]+))", text)]]:
    the lazy [.*?] stops at the first place the group matches, and the
    search goes on after the match. *)
Fixpoint findall_aliases (skip : nat) (text : string) : list string :=
  match text with
  | EmptyString => []
  | String _ rest =>
      match skip with
      | S k => findall_aliases k rest
      | O =>
          match match_printout text with
          | Some (alias, n) => alias :: findall_aliases (n - 1) rest
          | None => findall_aliases 0 rest
          end
      end
  end.

End Str.

(** ** Effects *)

(** What a run leaves behind, in the order it happened. *)
Inductive event : Type :=
  | Asked (query : string)       (* osw_obj.mw_site.ask(query) *)
  | Warned (msg : string)        (* _logger.warning(msg) *)
  | Printed (line : string).     (* print(line) *)

#[global] Instance event_eq_dec : EqDecision event.
Proof. solve_decision. Defined.

Inductive exn : Type :=
  | ValueError (msg : string)
  | IndexError (msg : string).

Inductive outcome (A : Type) : Type :=
  | Ok (a : A)
  | Raised (e : exn).
Arguments Ok {A} a.
Arguments Raised {A} e.

(** A computation reads the trace so far and returns its outcome with the
    extended trace; an exception keeps the trace up to the raise. *)
Definition M (A : Type) : Type := list event → outcome A * list event.

#[global] Instance M_ret : MRet M := λ A a tr, (Ok a, tr).
#[global] Instance M_bind : MBind M := λ A B f m tr,
  match m tr with
  | (Ok a, tr') => f a tr'
  | (Raised e, tr') => (Raised e, tr')
  end.

Definition raise {A : Type} (e : exn) : M A := λ tr, (Raised e, tr).
Definition emit (e : event) : M unit := λ tr, (Ok tt, tr ++ [e]).

(** [for x in xs: acc = body(acc, x)], stopping at the first exception. *)
Fixpoint for_each {A B : Type} (xs : list A) (acc : B) (body : B → A → M B) : M B :=
  match xs with
  | [] => mret acc
  | x :: rest => acc' ← body acc x; for_each rest acc' body
  end.

(** The warnings of a trace. *)
Definition warnings (tr : list event) : list string :=
  omap (λ e, match e with Warned m => Some m | _ => None end) tr.

(** The queries of a trace. *)
Definition queries (tr : list event) : list string :=
  omap (λ e, match e with Asked q => Some q | _ => None end) tr.

(** ** The wiki client *)

(** One row of [mw_site.ask]: the page's full title under ["fulltext"]
    ([None] when the row has none) and, under ["printouts"], the values
    printed for each requested alias. *)
Record ask_result : Type := {
  fulltext : pyval;
  printouts : gmap string (list string)
}.

(** [OswExpress]: of the client only [mw_site.ask] is used; it answers
    [None] or the rows of the query. *)
Record OswExpress : Type := {
  mw_site_ask : string → option (list ask_result)
}.

(** [chr(10)] and the double quote, which a literal cannot hold. *)
Definition nl : string := String (Ascii.ascii_of_nat 10) EmptyString.
Definition dq : string := String (Ascii.ascii_of_nat 34) EmptyString.

(** ** gather_categories.py *)

Module GatherCategories.

(** [osw_obj.mw_site.ask(query)], recorded in the trace. *)
Definition ask (osw_obj : OswExpress) (query : string)
  : M (option (list ask_result)) :=
  emit (Asked query);; mret (mw_site_ask osw_obj query).

(** The body of the loop over [results]: the entry of one row. *)
Definition make_entry (return_fields : list string) (result : ask_result)
  : gmap string pyval :=
  let title := fulltext result in
  foldl
    (λ (entry : gmap string pyval) field,
       match printouts result !! field with
       | Some (first :: _) => <[field := PyStr first]> entry
       | _ => <[field := PyStr ""]> entry
       end)
    ({["title" := title]} : gmap string pyval)
    return_fields.

Definition query_return_dict_list (osw_obj : OswExpress) (query : string)
  : M (list (gmap string pyval)) :=
  let return_fields := Str.findall_aliases 0 query in
  results ← ask osw_obj query;
  match results with
  | None => mret []
  | Some results => mret (make_entry return_fields <$> results)
  end.

(** The deduplication loop shared by [get_subcategories] and
    [get_all_instances_and_subcategories], with its two accumulators. *)
Fixpoint unique_loop (items : list (gmap string pyval))
    (fpt_list : list pyval) (unique_items : list (gmap string pyval))
  : list (gmap string pyval) :=
  match items with
  | [] => unique_items
  | item :: rest =>
      let fpt := dict_get "title" item in
      if truthy fpt && negb (bool_decide (fpt ∈ fpt_list))
      then unique_loop rest (fpt_list ++ [fpt]) (unique_items ++ [item])
      else unique_loop rest fpt_list unique_items
  end.

Definition unique_by_title (items : list (gmap string pyval))
  : list (gmap string pyval) :=
  unique_loop items [] [].

Definition query_self (category_fpt : string) : string :=
  Str.replace "[[:{category_fpt}]]|?HasName=name" "{category_fpt}" category_fpt.

Definition query_subclass (category_fpt : string) : string :=
  Str.replace "[[SubClassOf::{category_fpt}]]|?HasName=name"
    "{category_fpt}" category_fpt.

Definition query_metacategory (subcat_fpt : string) : string :=
  Str.replace "[[-HasMetaCategory::{subcat_fpt}]]|?HasName=name"
    "{subcat_fpt}" subcat_fpt.

Definition query_schema (category_fpt : string) : string :=
  Str.replace "[[HasSchema::{category_fpt}]]|?HasName=name"
    "{category_fpt}" category_fpt.

(** [f"Max depth {max_depth} reached at category {category_fpt}"]. *)
Definition max_depth_msg (max_depth : Z) (category_fpt : string) : string :=
  "Max depth " +:+ pretty max_depth +:+ " reached at category " +:+ category_fpt.

(** [f"Category {category_fpt} not found"]. *)
Definition not_found_msg (category_fpt : string) : string :=
  "Category " +:+ category_fpt +:+ " not found".

(** [get_subcategories] from the self-lookup to the end of the descent
    (lines 91-114): the list [subcategories] in the order of discovery, before
    duplicates are removed.  [recurse] is the call
    [get_subcategories(osw_obj, subcat_fpt, depth + 1, max_depth)]. *)
Definition gather_subcategories (recurse : string → M (list (gmap string pyval)))
    (osw_obj : OswExpress) (category_fpt : string)
  : M (list (gmap string pyval)) :=
  result1 ← query_return_dict_list osw_obj (query_self category_fpt);
  match result1 with
  | [] => raise (ValueError (not_found_msg category_fpt))
  | first :: _ =>
      let subcategories := [first] in
      results2 ← query_return_dict_list osw_obj (query_subclass category_fpt);
      match results2 with
      | [] => mret subcategories
      | _ :: _ =>
          for_each results2 (subcategories ++ results2)
            (λ subcategories result,
               let subcat_fpt := dict_get "title" result in
               if truthy subcat_fpt
               then sub_subcategories ← recurse (py_str subcat_fpt);
                    mret (subcategories ++ sub_subcategories)
               else mret subcategories)
      end
  end.

(** [get_subcategories] below its depth test (lines 91-124). *)
Definition descend (recurse : string → M (list (gmap string pyval)))
    (osw_obj : OswExpress) (category_fpt : string)
  : M (list (gmap string pyval)) :=
  subcategories ← gather_subcategories recurse osw_obj category_fpt;
  mret (unique_by_title subcategories).

(** [get_subcategories] by recursion on the number [rem] of levels still
    allowed: [rem = max_depth - depth + 1], so [rem = 0] is the test
    [depth > max_depth] and the call at [depth + 1] has [rem - 1]. *)
Fixpoint get_subcategories_rec (rem : nat) (osw_obj : OswExpress)
    (category_fpt : string) (max_depth : Z) : M (list (gmap string pyval)) :=
  match rem with
  | O =>
      emit (Warned (max_depth_msg max_depth category_fpt));;
      mret []
  | S rem' =>
      descend (λ subcat_fpt, get_subcategories_rec rem' osw_obj subcat_fpt max_depth)
        osw_obj category_fpt
  end.

Definition get_subcategories (osw_obj : OswExpress) (category_fpt : string)
    (depth max_depth : Z) : M (list (gmap string pyval)) :=
  get_subcategories_rec (Z.to_nat (max_depth - depth + 1)) osw_obj
    category_fpt max_depth.

Definition get_subcategories_and_metacategories (osw_obj : OswExpress)
    (category_fpt : string) (max_depth : Z) : M (list (gmap string pyval)) :=
  subcategories ← get_subcategories osw_obj category_fpt 0 max_depth;
  metacategories ←
    for_each subcategories []
      (λ metacategories subcat,
         let subcat_fpt := dict_get "title" subcat in
         if truthy subcat_fpt
         then metacat_results ←
                query_return_dict_list osw_obj
                  (query_metacategory (py_str subcat_fpt));
              mret (metacategories ++ metacat_results)
         else mret metacategories);
  let all_items := subcategories in
  mret (all_items ++ metacategories).

Definition get_instances (osw_obj : OswExpress) (category_fpt : string)
  : M (list (gmap string pyval)) :=
  instances ← query_return_dict_list osw_obj (query_self category_fpt);
  more ← query_return_dict_list osw_obj (query_schema category_fpt);
  mret (instances ++ more).

(** [get_all_instances_and_subcategories] up to its deduplication (lines
    213-226): the list [all_items]. *)
Definition gather_all_items (osw_obj : OswExpress)
    (category_fpt : string) (max_depth : Z) : M (list (gmap string pyval)) :=
  subcategories ←
    get_subcategories_and_metacategories osw_obj category_fpt max_depth;
  for_each subcategories subcategories
    (λ all_items subcat,
       let subcat_fpt := dict_get "title" subcat in
       if truthy subcat_fpt
       then instances ← get_instances osw_obj (py_str subcat_fpt);
            mret (all_items ++ instances)
       else mret all_items).

Definition get_all_instances_and_subcategories (osw_obj : OswExpress)
    (category_fpt : string) (max_depth : Z) : M (list (gmap string pyval)) :=
  all_items ← gather_all_items osw_obj category_fpt max_depth;
  mret (unique_by_title all_items).

(** [f'"{cat.get("title")}",  # {cat.get("name")}\n']. *)
Definition entry_line (cat : gmap string pyval) : string :=
  dq +:+ py_str (dict_get "title" cat) +:+ dq +:+ ",  # "
     +:+ py_str (dict_get "name" cat) +:+ nl.

Definition append_dict_to_string (string_ : string)
    (dict_list : list (gmap string pyval)) (note : string) : M string :=
  match dict_list with
  | [] => raise (IndexError "list index out of range")
  | first :: _ =>
      let string_ :=
        string_ +:+ nl +:+ "# " +:+ py_str (dict_get "name" first) +:+ " "
                +:+ note +:+ nl in
      mret (foldl (λ s cat, s +:+ entry_line cat) string_ dict_list)
  end.

Definition append_subcategories_to_string (string_ category_fpt : string)
    (osw_obj : OswExpress) : M string :=
  subcats ← get_subcategories_and_metacategories osw_obj category_fpt 10;
  append_dict_to_string string_ subcats ", subcategories and meta categories".

Definition append_instances_to_string (string_ category_fpt : string)
    (osw_obj : OswExpress) : M string :=
  instances ← get_instances osw_obj category_fpt;
  match instances with
  | [] => raise (IndexError "list index out of range")
  | first :: rest =>
      let string_ :=
        string_ +:+ nl +:+ "# Instances of " +:+ py_str (dict_get "name" first)
                +:+ nl in
      mret (foldl (λ s inst, s +:+ entry_line inst) string_ rest)
  end.

Definition append_subcategories_and_instances_to_string
    (string_ category_fpt : string) (osw_obj : OswExpress) : M string :=
  string_ ← append_subcategories_to_string string_ category_fpt osw_obj;
  append_instances_to_string string_ category_fpt osw_obj.

Definition append_all_subcategories_and_instances_to_string
    (string_ category_fpt : string) (osw_obj : OswExpress) : M string :=
  all_items ← get_all_instances_and_subcategories osw_obj category_fpt 10;
  append_dict_to_string string_ all_items "and all subcategories and instances".

End GatherCategories.

(** ** add_ontology_matches.py *)

Module AddOntologyMatches.

(** The attributes of an [Electrode] or [ActiveMaterial] that the script
    reads or assigns.  [get_iri()] is computed by the model library from the
    page's namespace and title, which the script never assigns: it is the
    field [iri]. *)
Record entity : Type := {
  iri : string;
  label : list string;                      (* the [text] of each label *)
  name : pyval;
  exact_ontology_match : option (gset string)
}.

(** One row of the SPARQL result: [?prefLabel] is always bound, [?altLabel]
    is optional. *)
Record row : Type := {
  prefLabel : string;
  altLabel : pyval
}.

(** The parsed graph [g]: of it only [g.query] is used. *)
Record Graph : Type := {
  graph_query : string → list row
}.

(** The f-string of lines 72-78. *)
Definition sparql_query (target : string) : string :=
  nl +:+ "        PREFIX skos: <http://www.w3.org/2004/02/skos/core#>" +:+ nl
     +:+ "        SELECT ?prefLabel ?altLabel WHERE {" +:+ nl
     +:+ "            <" +:+ target +:+ "> skos:prefLabel ?prefLabel ." +:+ nl
     +:+ "            OPTIONAL { <" +:+ target +:+ "> skos:altLabel ?altLabel . }" +:+ nl
     +:+ "        }" +:+ nl
     +:+ "        ".

Definition set_exact_ontology_match (e : entity) (v : gset string) : entity :=
  {| iri := iri e; label := label e; name := name e;
     exact_ontology_match := Some v |}.

Definition set_name (e : entity) (v : string) : entity :=
  {| iri := iri e; label := label e; name := PyStr v;
     exact_ontology_match := exact_ontology_match e |}.

(** The body of the loop over the rows of [qres] (lines 84-87). *)
Definition take_labels (target : string) (e : entity) (r : row) : M entity :=
  let e := set_name e (prefLabel r) in
  let alt_label :=
    if truthy (altLabel r) then PyStr (py_str (altLabel r)) else PyNone in
  emit (Printed ("Found prefLabel " +:+ py_str (name e) +:+ " and altLabel "
                 +:+ py_str alt_label +:+ " for " +:+ target));;
  mret e.

(** The body of the loop over [entities] (lines 67-87) for one entity,
    returning the entity as the loop leaves it. *)
Definition enrich (data : gmap string string) (g : Graph) (e : entity) : M entity :=
  let fpt := iri e in
  match data !! fpt with
  | Some target =>
      let e := set_exact_ontology_match e {[target]} in
      first_label ←
        match label e with
        | [] => raise (IndexError "list index out of range")
        | first :: _ => mret first
        end;
      emit (Printed ("Found an ontology match for " +:+ fpt +:+ " with label "
                     +:+ first_label));;
      let qres := graph_query g (sparql_query target) in
      (if bool_decide (1 < length qres)
       then emit (Warned ("More than one result for " +:+ target))
       else mret tt);;
      for_each qres e (take_labels target)
  | None => mret e
  end.

(** The whole loop, over the list [entities]. *)
Definition enrich_all (data : gmap string string) (g : Graph)
    (entities : list entity) : M (list entity) :=
  for_each entities []
    (λ done_ e, e' ← enrich data g e; mret (done_ ++ [e'])).

End AddOntologyMatches.

(** ** Vocabulary of the statements *)

Module GatherSpec.
Import GatherCategories.

(** The identifier of an entry, and the identifiers of a list. *)
Definition title (item : gmap string pyval) : pyval := dict_get "title" item.
Definition titles (items : list (gmap string pyval)) : list pyval := title <$> items.

(** How often an identifier occurs in a list of entries. *)
Definition count_title (t : pyval) (items : list (gmap string pyval)) : nat :=
  length (filter (λ item, title item = t) items).

(** The entries the store answers to a query: [query_return_dict_list]
    without its trace. *)
Definition answer (osw_obj : OswExpress) (query : string)
  : list (gmap string pyval) :=
  match mw_site_ask osw_obj query with
  | None => []
  | Some results => make_entry (Str.findall_aliases 0 query) <$> results
  end.

(** What the deduplication loop adds to [unique_items] once [seen] holds the
    identifiers already taken. *)
Fixpoint keep_new (seen : list pyval) (items : list (gmap string pyval))
  : list (gmap string pyval) :=
  match items with
  | [] => []
  | item :: rest =>
      if truthy (title item) && negb (bool_decide (title item ∈ seen))
      then item :: keep_new (seen ++ [title item]) rest
      else keep_new seen rest
  end.

(** [result] keeps of [items] the first entry of every identifier: no
    identifier twice, the entries themselves in their order, each one the
    first of its identifier, and no identifier of [items] lost (an entry
    without identifier is not kept). *)
Definition first_wins (items result : list (gmap string pyval)) : Prop :=
  NoDup (titles result) ∧
  result `sublist_of` items ∧
  (∀ x, x ∈ result →
     truthy (title x) = true ∧
     ∃ pre post, items = pre ++ x :: post ∧ title x ∉ titles pre) ∧
  (∀ y, y ∈ items → truthy (title y) = true → title y ∈ titles result).

(** The rows the meta-category loop of [get_subcategories_and_metacategories]
    collects over [subcategories]. *)
Definition metacategories_of (osw_obj : OswExpress)
    (subcategories : list (gmap string pyval)) : list (gmap string pyval) :=
  subcategories ≫= λ subcat,
    if truthy (title subcat)
    then answer osw_obj (query_metacategory (py_str (title subcat)))
    else [].

(** The rows the instance loop of [get_all_instances_and_subcategories]
    collects over [subcategories]. *)
Definition instances_of (osw_obj : OswExpress)
    (subcategories : list (gmap string pyval)) : list (gmap string pyval) :=
  subcategories ≫= λ subcat,
    if truthy (title subcat)
    then answer osw_obj (query_self (py_str (title subcat)))
           ++ answer osw_obj (query_schema (py_str (title subcat)))
    else [].

(** Every category met within [rem] levels below [category_fpt] has a row of
    its own: no self-lookup of the traversal comes back empty. *)
Fixpoint all_found (rem : nat) (osw_obj : OswExpress) (category_fpt : string) : bool :=
  match rem with
  | O => true
  | S rem' =>
      match answer osw_obj (query_self category_fpt) with
      | [] => false
      | _ :: _ =>
          forallb
            (λ result,
               if truthy (title result)
               then all_found rem' osw_obj (py_str (title result))
               else true)
            (answer osw_obj (query_subclass category_fpt))
      end
  end.

(** The exception is the not-found error of a category without self-lookup
    row. *)
Definition missing_category (osw_obj : OswExpress) (e : exn) : Prop :=
  ∃ category_fpt,
    e = ValueError (not_found_msg category_fpt)
    ∧ answer osw_obj (query_self category_fpt) = [].

(** [nodes] is a subclass chain of the store: each node has an identifier,
    is the one row of its self-lookup, and has the next node as its only
    subclass (the last node has none). *)
Fixpoint is_chain (osw_obj : OswExpress) (nodes : list (gmap string pyval)) : Prop :=
  match nodes with
  | [] => True
  | node :: rest =>
      truthy (title node) = true ∧
      answer osw_obj (query_self (py_str (title node))) = [node] ∧
      answer osw_obj (query_subclass (py_str (title node))) = take 1 rest ∧
      is_chain osw_obj rest
  end.

(** The subclass relation [a] -> [b] -> [a]: each of the two categories is
    the one row of its self-lookup and the only subclass of the other. *)
Definition two_cycle (osw_obj : OswExpress) (a b : string)
    (record_a record_b : gmap string pyval) : Prop :=
  a ≠ "" ∧ b ≠ "" ∧ a ≠ b ∧
  title record_a = PyStr a ∧ title record_b = PyStr b ∧
  answer osw_obj (query_self a) = [record_a] ∧
  answer osw_obj (query_subclass a) = [record_b] ∧
  answer osw_obj (query_self b) = [record_b] ∧
  answer osw_obj (query_subclass b) = [record_a].

(** *** Mock stores *)

(** A page row with its name printed. *)
Definition page (fpt name : string) : ask_result :=
  {| fulltext := PyStr fpt; printouts := {["name" := [name]]} |}.

(** The entry [query_return_dict_list] makes of [page fpt name]. *)
Definition record (fpt name : string) : gmap string pyval :=
  <["name" := PyStr name]> {["title" := PyStr fpt]}.

(** A store that answers the listed queries and [None] to any other. *)
Definition table_store (table : list (string * list ask_result)) : OswExpress :=
  {| mw_site_ask query := (list_to_map table : gmap string (list ask_result)) !! query |}.

(** A chain of three categories. *)
Definition chain3 : OswExpress :=
  table_store
    [ (query_self "Cat:A", [page "Cat:A" "Alpha"]);
      (query_subclass "Cat:A", [page "Cat:B" "Beta"]);
      (query_self "Cat:B", [page "Cat:B" "Beta"]);
      (query_subclass "Cat:B", [page "Cat:C" "Gamma"]);
      (query_self "Cat:C", [page "Cat:C" "Gamma"]) ].

(** The cyclic subclass relation A -> B -> A. *)
Definition cycle2 : OswExpress :=
  table_store
    [ (query_self "A", [page "A" "a"]);
      (query_subclass "A", [page "B" "b"]);
      (query_self "B", [page "B" "b"]);
      (query_subclass "B", [page "A" "a"]) ].

(** Two categories declared by the same meta-category. *)
Definition shared_meta : OswExpress :=
  table_store
    [ (query_self "Cat:A", [page "Cat:A" "Alpha"]);
      (query_subclass "Cat:A", [page "Cat:B" "Beta"]);
      (query_self "Cat:B", [page "Cat:B" "Beta"]);
      (query_metacategory "Cat:A", [page "Cat:M" "Meta"]);
      (query_metacategory "Cat:B", [page "Cat:M" "Meta"]) ].

(** The store of the manifest example: [Cat:A] has the subclass [Cat:B]
    (name Beta), and [Cat:B] has the instance [Item:1] (name One). *)
Definition manifest_store (a_name : string) : OswExpress :=
  table_store
    [ (query_self "Cat:A", [page "Cat:A" a_name]);
      (query_subclass "Cat:A", [page "Cat:B" "Beta"]);
      (query_self "Cat:B", [page "Cat:B" "Beta"]);
      (query_schema "Cat:B", [page "Item:1" "One"]) ].

(** The line of the manifest for one record: the quoted identifier, a comma,
    two blanks, the name as a comment, and the end of the line. *)
Definition manifest_line (fpt name : string) : string :=
  dq +:+ fpt +:+ dq +:+ ",  # " +:+ name +:+ nl.

(** [text] holds the [parts] one after the other, in this order. *)
Fixpoint contains_in_order (text : string) (parts : list string) : Prop :=
  match parts with
  | [] => True
  | part :: later =>
      ∃ before after,
        text = before +:+ part +:+ after ∧ contains_in_order after later
  end.

(** A category whose own page also carries it as schema. *)
Definition both_queries : OswExpress :=
  table_store
    [ (query_self "Cat:C", [page "Cat:C" "Gamma"]);
      (query_schema "Cat:C", [page "Cat:C" "Gamma"; page "Item:2" "Two"]) ].

(** A store that knows no page. *)
Definition empty_store : OswExpress := table_store [].

End GatherSpec.

Module OntologySpec.
Import AddOntologyMatches.

Definition electrode_iri : string :=
  "https://w3id.org/emmo/domain/electrochemistry#electrochemistry_0f007072_a8dd_4798_b865_1bf9363be627".

(** A mapping file with one entry. *)
Definition mapping : gmap string string := {["Item:OSWe1" := electrode_iri]}.

(** A graph that knows the preferred label of that one IRI. *)
Definition small_graph : Graph :=
  {| graph_query query :=
       if String.eqb query (sparql_query electrode_iri)
       then [ {| prefLabel := "Electrode"; altLabel := PyNone |} ]
       else [] |}.

(** The entity of that page, before the script has run. *)
Definition electrode : entity :=
  {| iri := "Item:OSWe1"; label := ["Elektrode"]; name := PyStr "Elektrode";
     exact_ontology_match := None |}.

(** The entity as the loop leaves it. *)
Definition electrode_matched : entity :=
  {| iri := "Item:OSWe1"; label := ["Elektrode"]; name := PyStr "Electrode";
     exact_ontology_match := Some {[electrode_iri]} |}.

(** The entity after the loop over the rows of the label lookup: the name is
    the preferred label of the last row, if there is a row. *)
Definition named_after (qres : list row) (e : entity) : entity :=
  match last qres with
  | Some r => set_name e (prefLabel r)
  | None => e
  end.

End OntologySpec.

(** ** Further vocabulary: rows, closures, rendered blocks *)

Module TraversalSpec.
Import GatherCategories GatherSpec.

(** No character of [text] is the bar that opens a printout request. *)
Fixpoint no_bar (text : string) : bool :=
  match text with
  | EmptyString => true
  | String c rest => negb (Ascii.eqb c "|") && no_bar rest
  end.

(** The value [query_return_dict_list] stores under [field] for a row: the
    first printed value, or the empty string. *)
Definition printed (result : ask_result) (field : string) : pyval :=
  match printouts result !! field with
  | Some (first :: _) => PyStr first
  | _ => PyStr ""
  end.

(** What [get_subcategories] returns with [rem] levels left, read off the
    answers of the store alone (the empty list where the code raises). *)
Fixpoint closure_list (rem : nat) (osw_obj : OswExpress) (category_fpt : string)
  : list (gmap string pyval) :=
  match rem with
  | O => []
  | S rem' =>
      match answer osw_obj (query_self category_fpt) with
      | [] => []
      | first :: _ =>
          let results2 := answer osw_obj (query_subclass category_fpt) in
          unique_by_title
            (([first] ++ results2)
               ++ (results2 ≫= λ result,
                     if truthy (title result)
                     then closure_list rem' osw_obj (py_str (title result))
                     else []))
      end
  end.

(** The entry is a row the store gave: the first row of a self-lookup or a
    row of a subclass query. *)
Definition from_store (osw_obj : OswExpress) (x : gmap string pyval) : Prop :=
  ∃ category_fpt,
    head (answer osw_obj (query_self category_fpt)) = Some x
    ∨ x ∈ answer osw_obj (query_subclass category_fpt).

(** The lines of a list of records, one after the other. *)
Definition lines_of (records : list (gmap string pyval)) : string :=
  foldr (λ cat text, entry_line cat +:+ text) "" records.

(** The block [append_dict_to_string] adds for a non-empty list whose first
    record has the name [header]. *)
Definition block_of (header note : string) (records : list (gmap string pyval))
  : string :=
  nl +:+ "# " +:+ header +:+ " " +:+ note +:+ nl +:+ lines_of records.

(** The queries of the meta-category loop over [subcategories]. *)
Definition metacategory_asks (subcategories : list (gmap string pyval)) : list event :=
  subcategories ≫= λ subcat,
    if truthy (title subcat)
    then [Asked (query_metacategory (py_str (title subcat)))]
    else [].

(** The queries of the instance loop over [categories]. *)
Definition instance_asks (categories : list (gmap string pyval)) : list event :=
  categories ≫= λ subcat,
    if truthy (title subcat)
    then [Asked (query_self (py_str (title subcat)));
          Asked (query_schema (py_str (title subcat)))]
    else [].

(** A store with a branching hierarchy: [Cat:A] has the subclasses [Cat:B]
    and [Cat:C], [Cat:B] has the subclass [Cat:D]; [Cat:M] declares [Cat:B],
    and [Item:1] has the schema [Cat:D]. *)
Definition tree_store : OswExpress :=
  table_store
    [ (query_self "Cat:A", [page "Cat:A" "Alpha"]);
      (query_subclass "Cat:A", [page "Cat:B" "Beta"; page "Cat:C" "Gamma"]);
      (query_self "Cat:B", [page "Cat:B" "Beta"]);
      (query_subclass "Cat:B", [page "Cat:D" "Delta"]);
      (query_self "Cat:C", [page "Cat:C" "Gamma"]);
      (query_self "Cat:D", [page "Cat:D" "Delta"]);
      (query_metacategory "Cat:B", [page "Cat:M" "Meta"]);
      (query_schema "Cat:D", [page "Item:1" "One"]) ].

End TraversalSpec.

Module ReachSpec.
Import GatherCategories GatherSpec.

(** [within osw_obj k category_fpt t]: the identifier [t] is reached from
    [category_fpt] in [k >= 1] steps along rows of subclass queries that carry
    an identifier. *)
Inductive within (osw_obj : OswExpress) : nat → string → pyval → Prop :=
  | within_child category_fpt result :
      result ∈ answer osw_obj (query_subclass category_fpt) →
      truthy (title result) = true →
      within osw_obj 1 category_fpt (title result)
  | within_step k category_fpt result t :
      result ∈ answer osw_obj (query_subclass category_fpt) →
      truthy (title result) = true →
      within osw_obj k (py_str (title result)) t →
      within osw_obj (S k) category_fpt t.

(** The computation only adds to the trace. *)
Definition grows {A : Type} (m : M A) : Prop :=
  ∀ tr o tr', m tr = (o, tr') → ∃ added, tr' = tr ++ added.

End ReachSpec.

Module OntologyMore.
Import AddOntologyMatches OntologySpec.

(** The line printed for one row of the label lookup. *)
Definition row_line (target : string) (r : row) : event :=
  Printed ("Found prefLabel " +:+ prefLabel r +:+ " and altLabel "
           +:+ py_str (if truthy (altLabel r) then PyStr (py_str (altLabel r)) else PyNone)
           +:+ " for " +:+ target).

(** The entity as one pass of the loop leaves it, read off the mapping and
    the graph alone. *)
Definition enriched (data : gmap string string) (g : Graph) (e : entity) : entity :=
  match data !! iri e with
  | Some target =>
      named_after (graph_query g (sparql_query target))
        (set_exact_ontology_match e {[target]})
  | None => e
  end.

(** The entity is not in the mapping, or it has a label to print. *)
Definition can_enrich (data : gmap string string) (e : entity) : Prop :=
  data !! iri e = None ∨ label e ≠ [].

(** A graph with two rows for the IRI of the electrode. *)
Definition ambiguous_graph : Graph :=
  {| graph_query query :=
       if String.eqb query (sparql_query electrode_iri)
       then [ {| prefLabel := "Electrode"; altLabel := PyStr "Elektrode" |};
              {| prefLabel := "ElectrodeMaterial"; altLabel := PyNone |} ]
       else [] |}.

(** A graph without any row. *)
Definition silent_graph : Graph := {| graph_query query := [] |}.

(** An entity that is not in the mapping. *)
Definition separator : entity :=
  {| iri := "Item:OSWs1"; label := ["Separator"]; name := PyStr "Separator";
     exact_ontology_match := None |}.

End OntologyMore.

(** * Proofs *)


(** ** Reading runs *)

Lemma bind_run {A B : Type} (m : M A) (f : A → M B) (tr : list event) :
  (m ≫= f) tr =
  match m tr with
  | (Ok a, tr') => f a tr'
  | (Raised e, tr') => (Raised e, tr')
  end.
Proof. reflexivity. Qed.

Lemma bind_ok {A B : Type} (m : M A) (f : A → M B) tr a tr' :
  m tr = (Ok a, tr') → (m ≫= f) tr = f a tr'.
Proof. intros H. by rewrite bind_run, H. Qed.

Lemma bind_raised {A B : Type} (m : M A) (f : A → M B) tr e tr' :
  m tr = (Raised e, tr') → (m ≫= f) tr = (Raised e, tr').
Proof. intros H. by rewrite bind_run, H. Qed.

Lemma bind_ok_inv {A B : Type} (m : M A) (f : A → M B) tr b tr2 :
  (m ≫= f) tr = (Ok b, tr2) →
  ∃ a tr1, m tr = (Ok a, tr1) ∧ f a tr1 = (Ok b, tr2).
Proof.
  rewrite bind_run. destruct (m tr) as [[a|e] tr1]; [eauto | discriminate].
Qed.

Lemma warnings_app tr1 tr2 : warnings (tr1 ++ tr2) = warnings tr1 ++ warnings tr2.
Proof. apply omap_app. Qed.

Lemma queries_app tr1 tr2 : queries (tr1 ++ tr2) = queries tr1 ++ queries tr2.
Proof. apply omap_app. Qed.

Module GatherFacts.
Import GatherCategories GatherSpec.

(** *** Queries and rows *)

(** The four queries, as the replacement of the placeholder leaves them. *)
Lemma queries_spelled_out fpt :
  query_self fpt = "[[:" +:+ fpt +:+ "]]|?HasName=name"
  ∧ query_subclass fpt = "[[SubClassOf::" +:+ fpt +:+ "]]|?HasName=name"
  ∧ query_metacategory fpt = "[[-HasMetaCategory::" +:+ fpt +:+ "]]|?HasName=name"
  ∧ query_schema fpt = "[[HasSchema::" +:+ fpt +:+ "]]|?HasName=name".
Proof. repeat split; reflexivity. Qed.

(** The alias requested by a query on a plain identifier is [name]. *)
Example return_fields_of_self_lookup :
  Str.findall_aliases 0 (query_self "Category:OSWc02165dc24544a10a2046b54506dedac")
  = ["name"].
Proof. reflexivity. Qed.

Lemma make_entry_page fpt name : make_entry ["name"] (page fpt name) = record fpt name.
Proof. reflexivity. Qed.

Lemma query_return_dict_list_run osw_obj query tr :
  query_return_dict_list osw_obj query tr
  = (Ok (answer osw_obj query), tr ++ [Asked query]).
Proof.
  unfold query_return_dict_list, answer, ask.
  rewrite !bind_run. unfold emit. simpl.
  by destruct (mw_site_ask osw_obj query).
Qed.

(** *** The deduplication loop *)

Lemma unique_loop_keep_new items fpt_list unique_items :
  unique_loop items fpt_list unique_items
  = unique_items ++ keep_new fpt_list items.
Proof.
  revert fpt_list unique_items.
  induction items as [|item rest IH]; intros fl ui; simpl.
  - by rewrite app_nil_r.
  - fold (title item). destruct (truthy _ && _).
    + by rewrite IH, <- app_assoc.
    + apply IH.
Qed.

Lemma unique_by_title_keep_new items :
  unique_by_title items = keep_new [] items.
Proof. apply unique_loop_keep_new. Qed.

Lemma keep_new_sublist seen items : (keep_new seen items) `sublist_of` items.
Proof.
  revert seen. induction items as [|item rest IH]; intros seen; simpl.
  - constructor.
  - destruct (truthy _ && _); [apply sublist_skip | apply sublist_cons]; apply IH.
Qed.

Lemma first_occurrence_cons (item x : gmap string pyval) rest :
  title x ≠ title item →
  (∃ pre post, rest = pre ++ x :: post ∧ title x ∉ titles pre) →
  ∃ pre post, item :: rest = pre ++ x :: post ∧ title x ∉ titles pre.
Proof.
  intros Hne (pre & post & -> & Hpre).
  exists (item :: pre), post. split; [done|].
  unfold titles. rewrite fmap_cons, not_elem_of_cons. by split.
Qed.

Lemma keep_new_fresh seen items x :
  x ∈ keep_new seen items →
  truthy (title x) = true ∧ (title x ∉ seen) ∧
  ∃ pre post, items = pre ++ x :: post ∧ title x ∉ titles pre.
Proof.
  revert seen. induction items as [|item rest IH]; intros seen; simpl.
  - by intros ?%elem_of_nil.
  - destruct (truthy (title item)) eqn:Ht; simpl.
    + case_bool_decide as Hin; simpl.
      * intros (Hx & Hseen & Hocc)%IH.
        repeat split; [done..|].
        apply first_occurrence_cons; [|done]. congruence.
      * intros [->|Hx]%elem_of_cons.
        { repeat split; [done..|]. exists [], rest. split; [done|].
          apply not_elem_of_nil. }
        apply IH in Hx as (Hx & Hseen & Hocc).
        rewrite elem_of_app, list_elem_of_singleton in Hseen.
        repeat split; [done|tauto|].
        apply first_occurrence_cons; [|done]. tauto.
    + intros (Hx & Hseen & Hocc)%IH.
      repeat split; [done..|].
      apply first_occurrence_cons; [|done]. congruence.
Qed.

Lemma keep_new_NoDup seen items : NoDup (titles (keep_new seen items)).
Proof.
  revert seen. induction items as [|item rest IH]; intros seen; simpl.
  - constructor.
  - destruct (truthy _ && _); [|apply IH].
    unfold titles. rewrite fmap_cons. constructor; [|apply IH].
    intros (y & Hy & Hin)%list_elem_of_fmap.
    apply keep_new_fresh in Hin as (_ & Hseen & _).
    apply Hseen. rewrite elem_of_app, list_elem_of_singleton. by right.
Qed.

Lemma keep_new_complete seen items y :
  y ∈ items → truthy (title y) = true → title y ∉ seen →
  title y ∈ titles (keep_new seen items).
Proof.
  revert seen. induction items as [|item rest IH]; intros seen; simpl.
  - by intros ?%elem_of_nil.
  - intros Hy Ht Hseen.
    destruct (decide (title item = title y)) as [Heq|Hne].
    + rewrite Heq, Ht. simpl. rewrite bool_decide_eq_false_2 by done. simpl.
      rewrite Heq. apply list_elem_of_here.
    + apply elem_of_cons in Hy as [->|Hy]; [done|].
      destruct (truthy (title item) && _).
      * unfold titles. rewrite fmap_cons. apply list_elem_of_further.
        apply IH; [done..|].
        rewrite elem_of_app, list_elem_of_singleton. intros [?|?]; [done|].
        by apply Hne.
      * by apply IH.
Qed.

Lemma unique_first_wins items : first_wins items (unique_by_title items).
Proof.
  rewrite unique_by_title_keep_new. split; [|split; [|split]].
  - apply keep_new_NoDup.
  - apply keep_new_sublist.
  - intros x Hx. apply keep_new_fresh in Hx as (Ht & _ & Hocc). by split.
  - intros y Hy Ht. apply keep_new_complete; [done..|]. apply not_elem_of_nil.
Qed.

(** *** Deduplication of known lists *)

Lemma truthy_PyStr s : s ≠ "" → truthy (PyStr s) = true.
Proof. intros Hne. simpl. by destruct s. Qed.

Lemma keep_new_cons_new seen x items :
  truthy (title x) = true → title x ∉ seen →
  keep_new seen (x :: items) = x :: keep_new (seen ++ [title x]) items.
Proof. intros Ht Hnin. simpl. by rewrite Ht, bool_decide_eq_false_2. Qed.

Lemma keep_new_cons_seen seen x items :
  title x ∈ seen → keep_new seen (x :: items) = keep_new seen items.
Proof.
  intros Hin. simpl. rewrite bool_decide_eq_true_2 by done.
  by rewrite andb_false_r.
Qed.

Lemma keep_new_id seen items :
  Forall (λ x, truthy (title x) = true) items →
  NoDup (titles items) →
  (∀ t, t ∈ titles items → t ∉ seen) →
  keep_new seen items = items.
Proof.
  revert seen. induction items as [|x items IH]; intros seen Hall Hnd Hseen; [done|].
  apply Forall_cons in Hall as [Hx Hall].
  unfold titles in Hnd. rewrite fmap_cons in Hnd. apply NoDup_cons in Hnd as [Hnin Hnd].
  rewrite keep_new_cons_new; [|done|apply Hseen, list_elem_of_here].
  f_equal. apply IH; [done..|].
  intros t Ht. rewrite elem_of_app, list_elem_of_singleton.
  intros [Hin| ->]; [|done].
  by apply (Hseen t); [apply list_elem_of_further|].
Qed.

(** *** Loops that only extend their accumulator *)

Lemma for_each_extend {A C : Type} (xs : list A) (acc : list C)
    (body : list C → A → M (list C)) (val : A → list C) (evs : A → list event) tr :
  (∀ acc x tr, body acc x tr = (Ok (acc ++ val x), tr ++ evs x)) →
  for_each xs acc body tr = (Ok (acc ++ (xs ≫= val)), tr ++ (xs ≫= evs)).
Proof.
  intros Hbody. revert acc tr.
  induction xs as [|x xs IH]; intros acc tr; simpl.
  - by rewrite !app_nil_r.
  - rewrite bind_run, Hbody, IH. by rewrite <- !app_assoc.
Qed.

Lemma get_instances_run osw_obj category_fpt tr :
  get_instances osw_obj category_fpt tr
  = (Ok (answer osw_obj (query_self category_fpt)
           ++ answer osw_obj (query_schema category_fpt)),
     tr ++ [Asked (query_self category_fpt); Asked (query_schema category_fpt)]).
Proof.
  unfold get_instances.
  rewrite bind_run, query_return_dict_list_run.
  rewrite bind_run, query_return_dict_list_run.
  by rewrite <- app_assoc.
Qed.

(** *** The recursion of [get_subcategories] *)

Lemma get_subcategories_rec_0 osw_obj category_fpt max_depth tr :
  get_subcategories_rec 0 osw_obj category_fpt max_depth tr
  = (Ok [], tr ++ [Warned (max_depth_msg max_depth category_fpt)]).
Proof. reflexivity. Qed.

Lemma get_subcategories_truncated osw_obj category_fpt depth max_depth tr :
  (depth > max_depth)%Z →
  get_subcategories osw_obj category_fpt depth max_depth tr
  = (Ok [], tr ++ [Warned (max_depth_msg max_depth category_fpt)]).
Proof.
  intros Hd. unfold get_subcategories.
  by replace (Z.to_nat (max_depth - depth + 1)) with 0 by lia.
Qed.

(** The equation of the source: below the depth test, the body with the
    recursive call at [depth + 1]. *)
Lemma get_subcategories_descend osw_obj category_fpt depth max_depth :
  (depth ≤ max_depth)%Z →
  get_subcategories osw_obj category_fpt depth max_depth
  = descend (λ subcat_fpt, get_subcategories osw_obj subcat_fpt (depth + 1) max_depth)
      osw_obj category_fpt.
Proof.
  intros Hd. unfold get_subcategories.
  replace (Z.to_nat (max_depth - depth + 1))
    with (S (Z.to_nat (max_depth - (depth + 1) + 1))) by lia.
  reflexivity.
Qed.

(** The two cases together: the function as the source writes it. *)
Lemma get_subcategories_eq osw_obj category_fpt depth max_depth :
  get_subcategories osw_obj category_fpt depth max_depth
  = if bool_decide (depth > max_depth)%Z
    then emit (Warned (max_depth_msg max_depth category_fpt));; mret []
    else descend
           (λ subcat_fpt, get_subcategories osw_obj subcat_fpt (depth + 1) max_depth)
           osw_obj category_fpt.
Proof.
  case_bool_decide as Hd.
  - unfold get_subcategories.
    by replace (Z.to_nat (max_depth - depth + 1)) with 0 by lia.
  - apply get_subcategories_descend. lia.
Qed.

Lemma metacategory_loop_run osw_obj subcategories acc tr :
  for_each subcategories acc
    (λ metacategories subcat,
       let subcat_fpt := dict_get "title" subcat in
       if truthy subcat_fpt
       then metacat_results ←
              query_return_dict_list osw_obj (query_metacategory (py_str subcat_fpt));
            mret (metacategories ++ metacat_results)
       else mret metacategories) tr
  = (Ok (acc ++ metacategories_of osw_obj subcategories),
     tr ++ (subcategories ≫= λ subcat,
              if truthy (title subcat)
              then [Asked (query_metacategory (py_str (title subcat)))]
              else [])).
Proof.
  apply for_each_extend. intros acc' x tr'. simpl. fold (title x).
  destruct (truthy (title x)).
  - by rewrite bind_run, query_return_dict_list_run.
  - by rewrite !app_nil_r.
Qed.

Lemma instance_loop_run osw_obj subcategories acc tr :
  for_each subcategories acc
    (λ all_items subcat,
       let subcat_fpt := dict_get "title" subcat in
       if truthy subcat_fpt
       then instances ← get_instances osw_obj (py_str subcat_fpt);
            mret (all_items ++ instances)
       else mret all_items) tr
  = (Ok (acc ++ instances_of osw_obj subcategories),
     tr ++ (subcategories ≫= λ subcat,
              if truthy (title subcat)
              then [Asked (query_self (py_str (title subcat)));
                    Asked (query_schema (py_str (title subcat)))]
              else [])).
Proof.
  apply for_each_extend. intros acc' x tr'. simpl. fold (title x).
  destruct (truthy (title x)).
  - by rewrite bind_run, get_instances_run.
  - by rewrite !app_nil_r.
Qed.

Lemma get_subcategories_deduplicated osw_obj category_fpt depth max_depth tr l tr' :
  get_subcategories osw_obj category_fpt depth max_depth tr = (Ok l, tr') →
  ((depth > max_depth)%Z ∧ l = []) ∨
  ∃ items,
    gather_subcategories
      (λ subcat_fpt, get_subcategories osw_obj subcat_fpt (depth + 1) max_depth)
      osw_obj category_fpt tr = (Ok items, tr')
    ∧ l = unique_by_title items.
Proof.
  destruct (decide (depth > max_depth)%Z) as [Hd|Hd].
  - rewrite get_subcategories_truncated by done. intros [= <- _]. by left.
  - rewrite get_subcategories_descend by lia. unfold descend.
    intros (items & tr1 & Hitems & [= <- <-])%bind_ok_inv.
    right. by exists items.
Qed.

Lemma get_subcategories_and_metacategories_run osw_obj category_fpt max_depth tr
    subcategories tr1 :
  get_subcategories osw_obj category_fpt 0 max_depth tr = (Ok subcategories, tr1) →
  ∃ tr', get_subcategories_and_metacategories osw_obj category_fpt max_depth tr
         = (Ok (subcategories ++ metacategories_of osw_obj subcategories), tr').
Proof.
  intros Hsub. unfold get_subcategories_and_metacategories.
  rewrite (bind_ok _ _ _ _ _ Hsub), bind_run, metacategory_loop_run.
  simpl. eauto.
Qed.

Lemma gather_all_items_run osw_obj category_fpt max_depth tr subcategories tr1 :
  get_subcategories osw_obj category_fpt 0 max_depth tr = (Ok subcategories, tr1) →
  let all_categories := subcategories ++ metacategories_of osw_obj subcategories in
  ∃ tr', gather_all_items osw_obj category_fpt max_depth tr
         = (Ok (all_categories ++ instances_of osw_obj all_categories), tr').
Proof.
  intros Hsub all_categories. unfold gather_all_items.
  destruct (get_subcategories_and_metacategories_run _ _ _ _ _ _ Hsub) as [tr2 Hrun].
  rewrite (bind_ok _ _ _ _ _ Hrun), instance_loop_run. eauto.
Qed.

(** *** Uniqueness of identifiers in the traversal results *)

(** C1 (as amended).  For every store and every root, the lists returned by
    [get_subcategories] and [get_all_instances_and_subcategories] hold every
    identifier at most once: they are the discovery list with, for each
    identifier, its first entry kept as it is and the later ones dropped,
    and a duplicate raises nothing.  [get_subcategories_and_metacategories]
    returns the deduplicated subcategories followed by the meta-category rows
    of each of them, appended without deduplication. *)
Theorem traversal_identifiers_unique osw_obj category_fpt max_depth tr :
  (∀ depth l tr',
     get_subcategories osw_obj category_fpt depth max_depth tr = (Ok l, tr') →
     NoDup (titles l) ∧
     (((depth > max_depth)%Z ∧ l = []) ∨
      ∃ items,
        gather_subcategories
          (λ subcat_fpt, get_subcategories osw_obj subcat_fpt (depth + 1) max_depth)
          osw_obj category_fpt tr = (Ok items, tr')
        ∧ first_wins items l)) ∧
  (∀ items tr',
     gather_all_items osw_obj category_fpt max_depth tr = (Ok items, tr') →
     ∃ l, get_all_instances_and_subcategories osw_obj category_fpt max_depth tr
          = (Ok l, tr')
          ∧ NoDup (titles l) ∧ first_wins items l) ∧
  (∀ l tr',
     get_all_instances_and_subcategories osw_obj category_fpt max_depth tr
     = (Ok l, tr') →
     ∃ items, gather_all_items osw_obj category_fpt max_depth tr = (Ok items, tr')
              ∧ NoDup (titles l) ∧ first_wins items l) ∧
  (∀ l tr',
     get_subcategories_and_metacategories osw_obj category_fpt max_depth tr
     = (Ok l, tr') →
     ∃ subcategories tr1,
       get_subcategories osw_obj category_fpt 0 max_depth tr = (Ok subcategories, tr1)
       ∧ NoDup (titles subcategories)
       ∧ l = subcategories ++ metacategories_of osw_obj subcategories).
Proof.
  split; [|split; [|split]].
  - intros depth l tr' Hrun.
    destruct (get_subcategories_deduplicated _ _ _ _ _ _ _ Hrun)
      as [[Hd ->]|(items & Hitems & ->)].
    + split; [constructor|]. by left.
    + pose proof (unique_first_wins items) as Hfw.
      split; [apply Hfw|]. right. by exists items.
  - intros items tr' Hitems.
    exists (unique_by_title items).
    unfold get_all_instances_and_subcategories.
    rewrite (bind_ok _ _ _ _ _ Hitems).
    pose proof (unique_first_wins items) as Hfw.
    split; [done|]. split; [apply Hfw|done].
  - intros l tr'. unfold get_all_instances_and_subcategories.
    intros (items & tr1 & Hitems & [= <- <-])%bind_ok_inv.
    exists items. pose proof (unique_first_wins items) as Hfw.
    split; [done|]. split; [apply Hfw|done].
  - intros l tr' Hrun. unfold get_subcategories_and_metacategories in Hrun.
    apply bind_ok_inv in Hrun as (subcategories & tr1 & Hsub & Hrun).
    rewrite bind_run, metacategory_loop_run in Hrun. simpl in Hrun.
    injection Hrun as <- <-.
    exists subcategories, tr1. split; [done|]. split; [|done].
    destruct (get_subcategories_deduplicated _ _ _ _ _ _ _ Hsub)
      as [[_ ->]|(items & _ & ->)]; [constructor|].
    apply unique_first_wins.
Qed.

Lemma traversal_identifiers_unique_witness :
  NoDup (titles [record "Cat:A" "Alpha"; record "Cat:B" "Beta"]).
Proof.
  refine (proj1 (proj1 (traversal_identifiers_unique shared_meta "Cat:A" 5 [])
                   0%Z _ _ _)).
  vm_compute. reflexivity.
Defined.

(** C1 as stated fails for [get_subcategories_and_metacategories]: a
    meta-category that declares two of the subcategories is listed twice. *)
Lemma metacategories_not_deduplicated :
  ∃ l tr',
    get_subcategories_and_metacategories shared_meta "Cat:A" 5 [] = (Ok l, tr')
    ∧ count_title (PyStr "Cat:M") l = 2
    ∧ ¬ NoDup (titles l).
Proof.
  eexists _, _. split; [vm_compute; reflexivity|].
  split; [by vm_compute|].
  intros Hnd. apply NoDup_ListNoDup in Hnd.
  do 2 apply List.NoDup_cons_iff in Hnd as [_ Hnd].
  apply List.NoDup_cons_iff in Hnd as [Hin _]. apply Hin. by left.
Qed.

(** *** A category that is not found *)

Lemma gather_subcategories_not_found recurse osw_obj category_fpt tr :
  answer osw_obj (query_self category_fpt) = [] →
  gather_subcategories recurse osw_obj category_fpt tr
  = (Raised (ValueError (not_found_msg category_fpt)),
     tr ++ [Asked (query_self category_fpt)]).
Proof.
  intros Hself. unfold gather_subcategories.
  by rewrite bind_run, query_return_dict_list_run, Hself.
Qed.

(** C3.  When the self-lookup of the supplied category has no row,
    [get_subcategories] raises the not-found error that carries the
    identifier, and the self-lookup is the only query it has sent (no subclass
    query); nothing catches the error: [get_subcategories_and_metacategories]
    and [get_all_instances_and_subcategories] end with the same error and
    the same trace. *)
Theorem category_not_found_propagates osw_obj category_fpt max_depth tr :
  answer osw_obj (query_self category_fpt) = [] →
  (∀ depth, (depth ≤ max_depth)%Z →
     get_subcategories osw_obj category_fpt depth max_depth tr
     = (Raised (ValueError (not_found_msg category_fpt)),
        tr ++ [Asked (query_self category_fpt)])) ∧
  ((0 ≤ max_depth)%Z →
     get_subcategories_and_metacategories osw_obj category_fpt max_depth tr
     = (Raised (ValueError (not_found_msg category_fpt)),
        tr ++ [Asked (query_self category_fpt)])
     ∧ get_all_instances_and_subcategories osw_obj category_fpt max_depth tr
       = (Raised (ValueError (not_found_msg category_fpt)),
          tr ++ [Asked (query_self category_fpt)])).
Proof.
  intros Hself.
  assert (∀ depth, (depth ≤ max_depth)%Z →
     get_subcategories osw_obj category_fpt depth max_depth tr
     = (Raised (ValueError (not_found_msg category_fpt)),
        tr ++ [Asked (query_self category_fpt)])) as Hsub.
  { intros depth Hd. rewrite get_subcategories_descend by done.
    unfold descend. by rewrite bind_run, gather_subcategories_not_found. }
  split; [done|]. intros Hm.
  assert (get_subcategories_and_metacategories osw_obj category_fpt max_depth tr
     = (Raised (ValueError (not_found_msg category_fpt)),
        tr ++ [Asked (query_self category_fpt)])) as Hmeta.
  { unfold get_subcategories_and_metacategories.
    by rewrite (bind_raised _ _ _ _ _ (Hsub 0%Z Hm)). }
  split; [done|].
  unfold get_all_instances_and_subcategories, gather_all_items.
  by rewrite bind_run, (bind_raised _ _ _ _ _ Hmeta).
Qed.

Lemma category_not_found_propagates_witness :
  get_subcategories empty_store "NonexistentCategory" 0 5 []
  = (Raised (ValueError "Category NonexistentCategory not found"),
     [Asked "[[:NonexistentCategory]]|?HasName=name"]).
Proof.
  refine (proj1 (category_not_found_propagates empty_store "NonexistentCategory" 5 [] _)
            0%Z _).
  - reflexivity.
  - lia.
Defined.

(** *** Instances and the renderers *)

(** C9.  When the self-lookup of [category_fpt] has a row, [get_instances]
    returns the rows of the self-lookup first, so its first element is the
    category's own record, and the schema-assigned instances after them;
    [append_instances_to_string] prints the name of that first element in the
    header and one line for each of the remaining elements. *)
Theorem get_instances_starts_with_category osw_obj category_fpt first rest tr :
  answer osw_obj (query_self category_fpt) = first :: rest →
  ∃ tr',
    get_instances osw_obj category_fpt tr
    = (Ok (first :: rest ++ answer osw_obj (query_schema category_fpt)), tr')
    ∧ ∀ string_,
        append_instances_to_string string_ category_fpt osw_obj tr
        = (Ok (foldl (λ s inst, s +:+ entry_line inst)
                 (string_ +:+ nl +:+ "# Instances of "
                          +:+ py_str (dict_get "name" first) +:+ nl)
                 (rest ++ answer osw_obj (query_schema category_fpt))),
           tr').
Proof.
  intros Hself. eexists. split.
  - by rewrite get_instances_run, Hself.
  - intros string_. unfold append_instances_to_string.
    by rewrite bind_run, get_instances_run, Hself.
Qed.

Lemma get_instances_starts_with_category_witness :
  ∃ tr',
    get_instances both_queries "Cat:C" []
    = (Ok (record "Cat:C" "Gamma"
             :: [] ++ answer both_queries (query_schema "Cat:C")), tr')
    ∧ ∀ string_,
        append_instances_to_string string_ "Cat:C" both_queries []
        = (Ok (foldl (λ s inst, s +:+ entry_line inst)
                 (string_ +:+ nl +:+ "# Instances of "
                          +:+ py_str (dict_get "name" (record "Cat:C" "Gamma")) +:+ nl)
                 ([] ++ answer both_queries (query_schema "Cat:C"))),
           tr').
Proof.
  apply (get_instances_starts_with_category both_queries "Cat:C"
           (record "Cat:C" "Gamma") [] []).
  reflexivity.
Defined.

(** C10.  [get_instances] checks nothing: for a category without rows it
    returns the empty list and raises nothing.  On that category
    [append_instances_to_string] raises [IndexError], as
    [append_dict_to_string] does on the empty list; each of the two returns
    exactly when the list of records is not empty. *)
Theorem renderers_need_a_record osw_obj category_fpt tr :
  answer osw_obj (query_self category_fpt) = [] →
  answer osw_obj (query_schema category_fpt) = [] →
  (∃ tr',
     get_instances osw_obj category_fpt tr = (Ok [], tr')
     ∧ ∀ string_,
         append_instances_to_string string_ category_fpt osw_obj tr
         = (Raised (IndexError "list index out of range"), tr')) ∧
  (∀ string_ note tr0,
     append_dict_to_string string_ [] note tr0
     = (Raised (IndexError "list index out of range"), tr0)) ∧
  (∀ string_ dict_list note tr0,
     (∃ out tr1, append_dict_to_string string_ dict_list note tr0 = (Ok out, tr1))
     ↔ dict_list ≠ []) ∧
  (∀ string_ other_fpt tr0,
     (∃ out tr1,
        append_instances_to_string string_ other_fpt osw_obj tr0 = (Ok out, tr1))
     ↔ answer osw_obj (query_self other_fpt)
         ++ answer osw_obj (query_schema other_fpt) ≠ []).
Proof.
  intros Hself Hschema. split; [|split; [|split]].
  - eexists. split.
    + by rewrite get_instances_run, Hself, Hschema.
    + intros string_. unfold append_instances_to_string.
      by rewrite bind_run, get_instances_run, Hself, Hschema.
  - done.
  - intros string_ dict_list note tr0. destruct dict_list as [|first rest]; simpl.
    + split; [by intros (? & ? & ?)|done].
    + split; [done|]. intros _. by eexists _, _.
  - intros string_ other_fpt tr0. unfold append_instances_to_string.
    rewrite bind_run, get_instances_run.
    destruct (_ ++ _) as [|first rest]; simpl.
    + split; [by intros (? & ? & ?)|done].
    + split; [done|]. intros _. by eexists _, _.
Qed.

Lemma renderers_need_a_record_witness :
  ∃ tr',
    get_instances empty_store "Category:Missing" [] = (Ok [], tr')
    ∧ ∀ string_,
        append_instances_to_string string_ "Category:Missing" empty_store []
        = (Raised (IndexError "list index out of range"), tr').
Proof.
  refine (proj1 (renderers_need_a_record empty_store "Category:Missing" [] _ _));
    reflexivity.
Defined.

(** *** The root of a traversal *)

Lemma for_each_grows {A C : Type} (xs : list A) (body : list C → A → M (list C)) :
  (∀ x, x ∈ xs → ∀ acc tr, ∃ ext tr', body acc x tr = (Ok (acc ++ ext), tr')) →
  ∀ acc tr, ∃ ext tr', for_each xs acc body tr = (Ok (acc ++ ext), tr').
Proof.
  induction xs as [|x xs IH]; intros Hbody acc tr; simpl.
  - exists [], tr. by rewrite app_nil_r.
  - destruct (Hbody x (list_elem_of_here _ _) acc tr) as (ext1 & tr1 & Hx).
    rewrite (bind_ok _ _ _ _ _ Hx).
    destruct (IH (λ y Hy, Hbody y (list_elem_of_further _ _ _ Hy)) (acc ++ ext1) tr1)
      as (ext2 & tr2 & Hxs).
    exists (ext1 ++ ext2), tr2. by rewrite app_assoc.
Qed.

Lemma gather_subcategories_found recurse osw_obj category_fpt first rest tr :
  answer osw_obj (query_self category_fpt) = first :: rest →
  (∀ result, result ∈ answer osw_obj (query_subclass category_fpt) →
     truthy (title result) = true →
     ∀ tr0, ∃ l tr1, recurse (py_str (title result)) tr0 = (Ok l, tr1)) →
  ∃ more tr',
    gather_subcategories recurse osw_obj category_fpt tr = (Ok (first :: more), tr').
Proof.
  intros Hself Hrec. unfold gather_subcategories.
  rewrite bind_run, query_return_dict_list_run, Hself.
  rewrite bind_run, query_return_dict_list_run.
  destruct (answer osw_obj (query_subclass category_fpt)) as [|r rs] eqn:Hsub.
  - by eexists [], _.
  - match goal with
    | |- context [for_each ?xs ?acc0 ?body ?t] =>
        assert (∃ ext tr', for_each xs acc0 body t = (Ok (acc0 ++ ext), tr'))
          as (ext & tr' & Hloop); [apply for_each_grows|]
    end; last first.
    { rewrite Hloop. by eexists _, _. }
    intros x Hx acc tr0. simpl. fold (title x).
    destruct (truthy (title x)) eqn:Ht.
    + destruct (Hrec x Hx Ht tr0) as (l & tr1 & Hl).
      rewrite (bind_ok _ _ _ _ _ Hl). by eexists _, _.
    + exists [], tr0. by rewrite app_nil_r.
Qed.

Lemma get_subcategories_rec_found rem osw_obj max_depth :
  ∀ category_fpt tr,
    all_found rem osw_obj category_fpt = true →
    ∃ l tr', get_subcategories_rec rem osw_obj category_fpt max_depth tr = (Ok l, tr').
Proof.
  induction rem as [|rem IH]; intros category_fpt tr Hfound.
  - by eexists _, _.
  - simpl in Hfound.
    destruct (answer osw_obj (query_self category_fpt)) as [|first rest] eqn:Hself;
      [done|].
    rewrite forallb_forall in Hfound.
    edestruct (gather_subcategories_found
                 (λ subcat_fpt, get_subcategories_rec rem osw_obj subcat_fpt max_depth))
      as (more & tr' & Hgather); [done| |].
    { intros result Hin Ht tr0. apply IH.
      apply list_elem_of_In, Hfound in Hin. by rewrite Ht in Hin. }
    simpl. unfold descend. rewrite (bind_ok _ _ _ _ _ Hgather). by eexists _, _.
Qed.

Lemma get_subcategories_root_first osw_obj category_fpt max_depth first rest tr :
  (0 ≤ max_depth)%Z →
  answer osw_obj (query_self category_fpt) = first :: rest →
  truthy (title first) = true →
  all_found (Z.to_nat (max_depth + 1)) osw_obj category_fpt = true →
  ∃ l tr', get_subcategories osw_obj category_fpt 0 max_depth tr = (Ok (first :: l), tr').
Proof.
  intros Hm Hself Ht Hfound. unfold get_subcategories.
  replace (Z.to_nat (max_depth - 0 + 1)) with (Z.to_nat (max_depth + 1)) by lia.
  destruct (Z.to_nat (max_depth + 1)) as [|rem] eqn:Hrem; [lia|].
  simpl in Hfound. rewrite Hself, forallb_forall in Hfound.
  edestruct (gather_subcategories_found
               (λ subcat_fpt, get_subcategories_rec rem osw_obj subcat_fpt max_depth))
    as (more & tr' & Hgather); [done| |].
  { intros result Hin Hr tr0. apply get_subcategories_rec_found.
    apply list_elem_of_In, Hfound in Hin. by rewrite Hr in Hin. }
  simpl. unfold descend. rewrite (bind_ok _ _ _ _ _ Hgather).
  rewrite unique_by_title_keep_new. simpl. rewrite Ht. simpl.
  by eexists _, _.
Qed.

Lemma for_each_keeps_prefix {A C : Type} (xs : list A)
    (body : list C → A → M (list C)) :
  (∀ x acc tr acc' tr',
     body acc x tr = (Ok acc', tr') → ∃ ext, acc' = acc ++ ext) →
  ∀ acc tr r tr',
    for_each xs acc body tr = (Ok r, tr') → ∃ ext, r = acc ++ ext.
Proof.
  intros Hbody. induction xs as [|x xs IH]; intros acc tr r tr'; simpl.
  - intros [= <- _]. exists []. by rewrite app_nil_r.
  - intros (acc1 & tr1 & Hx & Hxs)%bind_ok_inv.
    apply Hbody in Hx as [ext1 ->]. apply IH in Hxs as [ext2 ->].
    exists (ext1 ++ ext2). by rewrite app_assoc.
Qed.

Lemma gather_subcategories_head recurse osw_obj category_fpt first rest tr items tr' :
  answer osw_obj (query_self category_fpt) = first :: rest →
  gather_subcategories recurse osw_obj category_fpt tr = (Ok items, tr') →
  ∃ more, items = first :: more.
Proof.
  intros Hself. unfold gather_subcategories.
  rewrite bind_run, query_return_dict_list_run, Hself.
  rewrite bind_run, query_return_dict_list_run.
  destruct (answer osw_obj (query_subclass category_fpt)) as [|r rs].
  - intros [= <- _]. by exists [].
  - intros Hloop. apply for_each_keeps_prefix in Hloop as [ext ->]; [by eexists|].
    intros x acc tr0 acc' tr1. simpl. destruct (truthy _).
    + intros (sub & tr2 & _ & [= <- _])%bind_ok_inv. by eexists.
    + intros [= <- _]. exists []. by rewrite app_nil_r.
Qed.

Lemma get_subcategories_head osw_obj category_fpt max_depth first rest tr l tr' :
  (0 ≤ max_depth)%Z →
  answer osw_obj (query_self category_fpt) = first :: rest →
  truthy (title first) = true →
  get_subcategories osw_obj category_fpt 0 max_depth tr = (Ok l, tr') →
  ∃ l', l = first :: l'.
Proof.
  intros Hm Hself Ht Hrun.
  apply get_subcategories_deduplicated in Hrun as [[? _]|(items & Hitems & ->)]; [lia|].
  eapply gather_subcategories_head in Hitems as [more ->]; [|done].
  rewrite unique_by_title_keep_new, keep_new_cons_new;
    [by eexists|done|apply not_elem_of_nil].
Qed.

(** *** A category that is missing below the root *)

Lemma for_each_raises {A B : Type} (P : exn → Prop) (xs : list A)
    (body : B → A → M B) :
  (∀ x, x ∈ xs → ∀ acc tr,
     (∃ acc' tr', body acc x tr = (Ok acc', tr'))
     ∨ (∃ e tr', body acc x tr = (Raised e, tr') ∧ P e)) →
  (∃ x, x ∈ xs ∧ ∀ acc tr, ∃ e tr', body acc x tr = (Raised e, tr') ∧ P e) →
  ∀ acc tr, ∃ e tr', for_each xs acc body tr = (Raised e, tr') ∧ P e.
Proof.
  induction xs as [|x xs IH]; intros Hall (bad & Hbad & Hraise) acc tr.
  - by apply elem_of_nil in Hbad.
  - simpl. rewrite bind_run.
    destruct (Hall x (list_elem_of_here _ _) acc tr)
      as [(acc1 & tr1 & Hok)|(e & tr1 & -> & He)]; [|by eexists _, _].
    rewrite Hok. apply elem_of_cons in Hbad as [->|Hbad].
    + destruct (Hraise acc tr) as (e & tr2 & Hx & _). congruence.
    + apply IH; [|by exists bad].
      intros y Hy. apply Hall. by apply list_elem_of_further.
Qed.

Lemma forallb_false {A : Type} (f : A → bool) (xs : list A) :
  forallb f xs = false → ∃ x, x ∈ xs ∧ f x = false.
Proof.
  induction xs as [|x xs IH]; [done|]. simpl.
  destruct (f x) eqn:Hx.
  - intros (y & Hy & Hfy)%IH. exists y. split; [by apply list_elem_of_further|done].
  - intros _. exists x. split; [apply list_elem_of_here|done].
Qed.

Lemma get_subcategories_rec_not_found rem osw_obj max_depth :
  ∀ category_fpt tr,
    all_found rem osw_obj category_fpt = false →
    ∃ e tr',
      get_subcategories_rec rem osw_obj category_fpt max_depth tr = (Raised e, tr')
      ∧ missing_category osw_obj e.
Proof.
  induction rem as [|rem IH]; intros category_fpt tr Hfound; [done|].
  simpl in Hfound. simpl. unfold descend.
  destruct (answer osw_obj (query_self category_fpt)) as [|first rest] eqn:Hself.
  - rewrite bind_run, gather_subcategories_not_found by done.
    eexists _, _. split; [done|]. by exists category_fpt.
  - unfold gather_subcategories.
    rewrite !bind_run, query_return_dict_list_run, Hself.
    rewrite bind_run, query_return_dict_list_run.
    destruct (answer osw_obj (query_subclass category_fpt)) as [|r rs] eqn:Hsub;
      [done|].
    match goal with
    | |- context [for_each ?xs ?acc0 ?body ?t] =>
        destruct (for_each_raises (missing_category osw_obj) xs body)
          with acc0 t as (e & tr' & Hloop & He)
    end.
    + intros x _ acc tr0. simpl. fold (title x).
      destruct (truthy (title x)); [|left; by eexists _, _].
      rewrite bind_run.
      destruct (all_found rem osw_obj (py_str (title x))) eqn:Hx.
      * destruct (get_subcategories_rec_found rem osw_obj max_depth _ tr0 Hx)
          as (l & tr1 & ->). left. by eexists _, _.
      * destruct (IH _ tr0 Hx) as (e & tr1 & -> & He). right. by eexists _, _.
    + apply forallb_false in Hfound as (x & Hx & Hbad).
      exists x. split; [done|]. intros acc tr0. simpl. fold (title x).
      destruct (truthy (title x)); [|done].
      destruct (IH _ tr0 Hbad) as (e & tr1 & Hrun & He).
      rewrite bind_run, Hrun. by eexists _, _.
    + rewrite Hloop. by eexists _, _.
Qed.

(** C5.  For a category whose self-lookup has a row with an identifier and
    for every [max_depth >= 0]: a list that [get_subcategories] returns has
    the category's own record as its first element; the call does return
    when the categories met within the depth bound have a row of their own,
    and otherwise ends in the not-found error of a missing one; without any
    subclass the list is the record of the category alone. *)
Theorem root_record_comes_first osw_obj category_fpt max_depth first rest tr :
  (0 ≤ max_depth)%Z →
  answer osw_obj (query_self category_fpt) = first :: rest →
  truthy (title first) = true →
  (∀ l tr',
     get_subcategories osw_obj category_fpt 0 max_depth tr = (Ok l, tr') →
     ∃ l', l = first :: l') ∧
  (all_found (Z.to_nat (max_depth + 1)) osw_obj category_fpt = true →
   ∃ l tr',
     get_subcategories osw_obj category_fpt 0 max_depth tr = (Ok (first :: l), tr')) ∧
  (all_found (Z.to_nat (max_depth + 1)) osw_obj category_fpt = false →
   ∃ e tr',
     get_subcategories osw_obj category_fpt 0 max_depth tr = (Raised e, tr')
     ∧ missing_category osw_obj e) ∧
  (answer osw_obj (query_subclass category_fpt) = [] →
   get_subcategories osw_obj category_fpt 0 max_depth tr
   = (Ok [first],
      tr ++ [Asked (query_self category_fpt); Asked (query_subclass category_fpt)])).
Proof.
  intros Hm Hself Ht. split; [|split; [|split]].
  - intros l tr'. by eapply get_subcategories_head.
  - intros Hfound. by eapply get_subcategories_root_first.
  - intros Hfound. unfold get_subcategories.
    replace (Z.to_nat (max_depth - 0 + 1)) with (Z.to_nat (max_depth + 1)) by lia.
    by apply get_subcategories_rec_not_found.
  - intros Hsub. rewrite get_subcategories_descend by done.
    unfold descend, gather_subcategories.
    rewrite !bind_run, query_return_dict_list_run, Hself.
    rewrite bind_run, query_return_dict_list_run, Hsub. simpl.
    rewrite unique_by_title_keep_new. simpl. rewrite Ht. simpl.
    by rewrite <- app_assoc.
Qed.

Lemma root_record_comes_first_witness :
  ∃ l tr',
    get_subcategories chain3 "Cat:A" 0 5 [] = (Ok (record "Cat:A" "Alpha" :: l), tr').
Proof.
  refine (proj1 (proj2 (root_record_comes_first chain3 "Cat:A" 5
                          (record "Cat:A" "Alpha") [] [] _ _ _)) _).
  - lia.
  - reflexivity.
  - reflexivity.
  - vm_compute. reflexivity.
Defined.

(** *** Counting identifiers *)

Lemma count_title_cons t item items :
  count_title t (item :: items)
  = (if decide (title item = t) then 1 else 0) + count_title t items.
Proof.
  unfold count_title. rewrite filter_cons. by destruct (decide (title item = t)).
Qed.

Lemma count_title_app t items1 items2 :
  count_title t (items1 ++ items2) = count_title t items1 + count_title t items2.
Proof. unfold count_title. by rewrite filter_app, length_app. Qed.

Lemma count_title_absent t items : t ∉ titles items → count_title t items = 0.
Proof.
  induction items as [|item items IH]; [done|].
  unfold titles. rewrite fmap_cons, not_elem_of_cons. intros [Hne Hnin].
  rewrite count_title_cons, IH by done. by rewrite decide_False.
Qed.

Lemma count_title_NoDup t items :
  NoDup (titles items) → t ∈ titles items → count_title t items = 1.
Proof.
  induction items as [|item items IH].
  - by intros _ ?%elem_of_nil.
  - unfold titles. rewrite fmap_cons, NoDup_cons, elem_of_cons.
    intros [Hnin Hnd] Hin. rewrite count_title_cons.
    destruct (decide (title item = t)) as [<-|Hne].
    + by rewrite count_title_absent.
    + destruct Hin as [?|Hin]; [done|]. by rewrite IH.
Qed.

Lemma count_title_pos t items :
  0 < count_title t items → ∃ y, y ∈ items ∧ title y = t.
Proof.
  unfold count_title. intros Hpos.
  destruct (filter (λ item, title item = t) items) as [|y ys] eqn:Hf;
    [simpl in Hpos; lia|].
  assert (y ∈ filter (λ item, title item = t) items) as Hy
    by (rewrite Hf; apply list_elem_of_here).
  apply list_elem_of_filter in Hy as [? ?]. eauto.
Qed.

Lemma get_all_instances_and_subcategories_inv osw_obj category_fpt max_depth tr l tr' :
  get_all_instances_and_subcategories osw_obj category_fpt max_depth tr = (Ok l, tr') →
  ∃ subcategories tr1,
    get_subcategories osw_obj category_fpt 0 max_depth tr = (Ok subcategories, tr1)
    ∧ l = unique_by_title
            ((subcategories ++ metacategories_of osw_obj subcategories)
               ++ instances_of osw_obj
                    (subcategories ++ metacategories_of osw_obj subcategories)).
Proof.
  unfold get_all_instances_and_subcategories, gather_all_items.
  intros (items & tr1 & Hitems & [= <- <-])%bind_ok_inv.
  apply bind_ok_inv in Hitems as (cats & tr2 & Hcats & Hloop).
  rewrite instance_loop_run in Hloop. injection Hloop as <- _.
  unfold get_subcategories_and_metacategories in Hcats.
  apply bind_ok_inv in Hcats as (subcategories & tr3 & Hsub & Hmeta).
  rewrite bind_run, metacategory_loop_run in Hmeta. injection Hmeta as <- _.
  by exists subcategories, tr3.
Qed.

(** C6.  An instance that the first query of [get_instances] (the
    self-lookup of the category, the direct query of the specification) and
    its schema-assignment query both return once stands twice in
    [get_instances]: the rows of the first query, then the rows of the
    second, nothing removed.  In a list that
    [get_all_instances_and_subcategories] returns for that category
    ([max_depth >= 0], the category's own row first in its self-lookup) it
    stands exactly once; the list is returned when the categories met within
    the depth bound have a row of their own. *)
Theorem instance_twice_then_once osw_obj category_fpt x first rest max_depth tr :
  truthy x = true →
  count_title x (answer osw_obj (query_self category_fpt)) = 1 →
  count_title x (answer osw_obj (query_schema category_fpt)) = 1 →
  (0 ≤ max_depth)%Z →
  answer osw_obj (query_self category_fpt) = first :: rest →
  title first = PyStr category_fpt →
  category_fpt ≠ "" →
  (∃ tr',
     get_instances osw_obj category_fpt tr
     = (Ok (answer osw_obj (query_self category_fpt)
              ++ answer osw_obj (query_schema category_fpt)), tr')
     ∧ count_title x (answer osw_obj (query_self category_fpt)
                        ++ answer osw_obj (query_schema category_fpt)) = 2) ∧
  (∀ l tr',
     get_all_instances_and_subcategories osw_obj category_fpt max_depth tr
     = (Ok l, tr') →
     count_title x l = 1) ∧
  (all_found (Z.to_nat (max_depth + 1)) osw_obj category_fpt = true →
   ∃ l tr',
     get_all_instances_and_subcategories osw_obj category_fpt max_depth tr
     = (Ok l, tr')).
Proof.
  intros Hx Hc1 Hc2 Hm Hself Htitle Hne.
  assert (truthy (title first) = true) as Ht
    by (rewrite Htitle; by apply truthy_PyStr).
  split; [|split].
  - eexists. split; [apply get_instances_run|].
    by rewrite count_title_app, Hc1, Hc2.
  - intros l tr' Hrun.
    apply get_all_instances_and_subcategories_inv in Hrun
      as (subcategories & tr1 & Hsub & ->).
    destruct (get_subcategories_head _ _ _ _ _ _ _ _ Hm Hself Ht Hsub) as [subs ->].
    match goal with |- count_title x (unique_by_title ?items) = 1 =>
      destruct (unique_first_wins items) as (Hnd & _ & _ & Hall) end.
    apply count_title_NoDup; [done|].
    destruct (count_title_pos x (answer osw_obj (query_self category_fpt)))
      as (y & Hy & <-); [lia|].
    apply Hall; [|done].
    apply elem_of_app. right. unfold instances_of.
    apply list_elem_of_bind. exists first. split.
    + rewrite Ht, Htitle. simpl. apply elem_of_app. by left.
    + apply elem_of_app. left. apply list_elem_of_here.
  - intros Hfound.
    destruct (get_subcategories_root_first _ _ _ _ _ tr Hm Hself Ht Hfound)
      as (subs & tr1 & Hsub).
    destruct (gather_all_items_run _ _ _ _ _ _ Hsub) as (tr' & Hitems).
    eexists _, tr'. unfold get_all_instances_and_subcategories.
    by rewrite (bind_ok _ _ _ _ _ Hitems).
Qed.

Lemma instance_twice_then_once_witness :
  (∃ tr',
     get_instances both_queries "Cat:C" []
     = (Ok (answer both_queries (query_self "Cat:C")
              ++ answer both_queries (query_schema "Cat:C")), tr')
     ∧ count_title (PyStr "Cat:C")
         (answer both_queries (query_self "Cat:C")
            ++ answer both_queries (query_schema "Cat:C")) = 2) ∧
  (∀ l tr',
     get_all_instances_and_subcategories both_queries "Cat:C" 5 [] = (Ok l, tr') →
     count_title (PyStr "Cat:C") l = 1) ∧
  (all_found (Z.to_nat (5 + 1)) both_queries "Cat:C" = true →
   ∃ l tr',
     get_all_instances_and_subcategories both_queries "Cat:C" 5 [] = (Ok l, tr')).
Proof.
  apply (instance_twice_then_once both_queries "Cat:C" (PyStr "Cat:C")
           (record "Cat:C" "Gamma") [] 5 []).
  - reflexivity.
  - by vm_compute.
  - by vm_compute.
  - lia.
  - reflexivity.
  - reflexivity.
  - discriminate.
Defined.

(** *** A cyclic subclass relation *)

Lemma two_cycle_sym osw_obj a b record_a record_b :
  two_cycle osw_obj a b record_a record_b → two_cycle osw_obj b a record_b record_a.
Proof.
  intros (Ha & Hb & Hab & Hta & Htb & Hsa & Hca & Hsb & Hcb).
  repeat split; congruence.
Qed.

Lemma two_cycle_run osw_obj max_depth rem :
  ∀ a b record_a record_b tr,
    two_cycle osw_obj a b record_a record_b →
    ∃ tr',
      get_subcategories_rec (S rem) osw_obj a max_depth tr
      = (Ok [record_a; record_b], tr')
      ∧ length (queries tr') = length (queries tr) + 2 * S rem.
Proof.
  induction rem as [|rem IH]; intros a b record_a record_b tr Hcycle;
    pose proof Hcycle as (Ha & Hb & Hab & Hta & Htb & Hsa & Hca & Hsb & Hcb).
  - eexists. simpl. unfold descend, gather_subcategories.
    rewrite !bind_run, query_return_dict_list_run, Hsa.
    rewrite bind_run, query_return_dict_list_run, Hca. simpl.
    fold (title record_b). rewrite Htb, truthy_PyStr by done. simpl.
    unfold emit. simpl. split.
    + f_equal. rewrite unique_by_title_keep_new.
      rewrite keep_new_cons_new; [|by rewrite Hta, truthy_PyStr|apply not_elem_of_nil].
      rewrite keep_new_cons_new; [done|by rewrite Htb, truthy_PyStr|].
      rewrite Hta, Htb. simpl. rewrite list_elem_of_singleton. congruence.
    + rewrite !queries_app, !length_app. simpl. lia.
  - destruct (IH b a record_b record_a
                (tr ++ [Asked (query_self a)] ++ [Asked (query_subclass a)])
                (two_cycle_sym _ _ _ _ _ Hcycle))
      as (tr' & Hrun & Hlen).
    exists tr'. split.
    + remember (S rem) as rem1. simpl. unfold descend, gather_subcategories.
      rewrite !bind_run, query_return_dict_list_run, Hsa.
      rewrite bind_run, query_return_dict_list_run, Hca. simpl.
      fold (title record_b). rewrite Htb, truthy_PyStr by done. simpl.
      rewrite <- app_assoc, !bind_run, Hrun. simpl.
      f_equal. rewrite unique_by_title_keep_new.
      rewrite keep_new_cons_new; [|by rewrite Hta, truthy_PyStr|apply not_elem_of_nil].
      rewrite keep_new_cons_new; [|by rewrite Htb, truthy_PyStr|];
        [|rewrite Hta, Htb; simpl; rewrite list_elem_of_singleton; congruence].
      rewrite keep_new_cons_seen; [|rewrite Hta, Htb; set_solver].
      rewrite keep_new_cons_seen; [done|rewrite Hta, Htb; set_solver].
    + rewrite Hlen, !queries_app, !length_app. simpl. lia.
Qed.

(** C4.  On a store whose subclass relation is the cycle [a] -> [b] -> [a],
    [get_subcategories] from [a] returns, for every [max_depth >= 0] (so for
    10), exactly the record of [a] and the record of [b], each once, with no
    exception, after [2 * (max_depth + 1)] queries. *)
Theorem cycle_is_cut_by_depth osw_obj a b record_a record_b max_depth tr :
  two_cycle osw_obj a b record_a record_b →
  (0 ≤ max_depth)%Z →
  ∃ tr',
    get_subcategories osw_obj a 0 max_depth tr = (Ok [record_a; record_b], tr')
    ∧ length (queries tr') = length (queries tr) + 2 * (Z.to_nat max_depth + 1).
Proof.
  intros Hcycle Hm. unfold get_subcategories.
  replace (Z.to_nat (max_depth - 0 + 1)) with (S (Z.to_nat max_depth)) by lia.
  destruct (two_cycle_run osw_obj max_depth (Z.to_nat max_depth) _ _ _ _ tr Hcycle)
    as (tr' & Hrun & Hlen).
  exists tr'. split; [done|]. rewrite Hlen. lia.
Qed.

Lemma cycle_is_cut_by_depth_witness :
  ∃ tr',
    get_subcategories cycle2 "A" 0 10 [] = (Ok [record "A" "a"; record "B" "b"], tr')
    ∧ length (queries tr') = length (queries []) + 2 * (Z.to_nat 10 + 1).
Proof.
  apply (cycle_is_cut_by_depth cycle2 "A" "B" (record "A" "a") (record "B" "b") 10 []).
  - unfold two_cycle. repeat split; try discriminate; reflexivity.
  - lia.
Defined.

(** *** A subclass chain *)

Lemma is_chain_truthy osw_obj nodes :
  is_chain osw_obj nodes → Forall (λ x, truthy (title x) = true) nodes.
Proof.
  induction nodes as [|node rest IH]; [constructor|].
  intros (Ht & _ & _ & Hrest). constructor; [done|by apply IH].
Qed.

Lemma descend_leaf recurse osw_obj first tr :
  is_chain osw_obj [first] →
  descend recurse osw_obj (py_str (title first)) tr
  = (Ok [first],
     tr ++ [Asked (query_self (py_str (title first)));
            Asked (query_subclass (py_str (title first)))]).
Proof.
  intros (Ht & Hself & Hsub & _). unfold descend, gather_subcategories.
  rewrite !bind_run, query_return_dict_list_run, Hself.
  rewrite bind_run, query_return_dict_list_run, Hsub. simpl.
  rewrite unique_by_title_keep_new, keep_new_cons_new;
    [|done|apply not_elem_of_nil].
  by rewrite <- app_assoc.
Qed.

Lemma descend_link recurse osw_obj first second rest tr child tr' :
  is_chain osw_obj (first :: second :: rest) →
  recurse (py_str (title second))
    (tr ++ [Asked (query_self (py_str (title first)));
            Asked (query_subclass (py_str (title first)))])
  = (Ok child, tr') →
  descend recurse osw_obj (py_str (title first)) tr
  = (Ok (unique_by_title (first :: second :: child)), tr').
Proof.
  intros (Ht & Hself & Hsub & Ht2 & _) Hchild. unfold descend, gather_subcategories.
  rewrite !bind_run, query_return_dict_list_run, Hself.
  rewrite bind_run, query_return_dict_list_run, Hsub. simpl.
  fold (title second). rewrite Ht2.
  rewrite <- app_assoc. simpl ([_] ++ [_]).
  by rewrite !bind_run, Hchild.
Qed.

Lemma unique_chain_link first second tail :
  Forall (λ x, truthy (title x) = true) (first :: second :: tail) →
  NoDup (titles (first :: second :: tail)) →
  unique_by_title (first :: second :: second :: tail) = first :: second :: tail.
Proof.
  intros Hall Hnd. rewrite unique_by_title_keep_new.
  pose proof Hall as [Ht1 [Ht2 Htail]%Forall_cons]%Forall_cons.
  unfold titles in Hnd. rewrite !fmap_cons in Hnd.
  pose proof Hnd as [Hn1 [Hn2 Hnd']%NoDup_cons]%NoDup_cons.
  rewrite not_elem_of_cons in Hn1. destruct Hn1 as [Hne Hn1].
  rewrite keep_new_cons_new; [|done|apply not_elem_of_nil].
  rewrite keep_new_cons_new; [|done|]; last first.
  { simpl. rewrite list_elem_of_singleton. congruence. }
  rewrite keep_new_cons_seen by set_solver.
  do 2 f_equal. apply keep_new_id; [done..|].
  intros t Hin. simpl. rewrite !not_elem_of_cons.
  split; [by intros ->|]. split; [by intros ->|apply not_elem_of_nil].
Qed.

Lemma NoDup_titles_take n items :
  NoDup (titles items) → NoDup (titles (take n items)).
Proof.
  unfold titles. rewrite fmap_take. intros Hnd.
  eapply sublist_NoDup; [done|apply sublist_take].
Qed.

Lemma chain_run osw_obj max_depth rem :
  ∀ first rest tr,
    is_chain osw_obj (first :: rest) →
    NoDup (titles (first :: rest)) →
    ∃ tr',
      get_subcategories_rec (S rem) osw_obj (py_str (title first)) max_depth tr
      = (Ok (take (S (S rem)) (first :: rest)), tr')
      ∧ warnings tr'
        = warnings tr
            ++ match (first :: rest) !! S rem with
               | Some node => [max_depth_msg max_depth (py_str (title node))]
               | None => []
               end.
Proof.
  induction rem as [|rem IH]; intros first rest tr Hchain Hnd.
  - destruct rest as [|second rest].
    + eexists. split; [apply descend_leaf; apply Hchain|].
      rewrite warnings_app. simpl. by rewrite app_nil_r.
    + eexists. split.
      * simpl. erewrite descend_link; [|done|reflexivity].
        f_equal. rewrite unique_by_title_keep_new.
        pose proof (is_chain_truthy _ _ Hchain) as Hall.
        rewrite keep_new_id; [done| | |].
        -- by apply (Forall_take _ 2) in Hall.
        -- by apply (NoDup_titles_take 2) in Hnd.
        -- intros t _. apply not_elem_of_nil.
      * rewrite !warnings_app. simpl. by rewrite app_nil_r.
  - destruct rest as [|second rest].
    + eexists. split.
      * remember (S rem) as rem1. simpl. rewrite descend_leaf; [done|].
        destruct Hchain as (? & ? & ? & _). by repeat split.
      * rewrite warnings_app. simpl. by rewrite app_nil_r.
    + pose proof Hchain as (_ & _ & _ & Hrest).
      unfold titles in Hnd. rewrite fmap_cons in Hnd.
      pose proof Hnd as [_ Hnd']%NoDup_cons.
      edestruct (IH second rest) as (tr' & Hrun & Hwarn); [done..|].
      exists tr'. split.
      * remember (S rem) as rem1. simpl.
        erewrite descend_link; [|done|apply Hrun].
        f_equal. subst rem1. rewrite firstn_cons.
        rewrite unique_chain_link; [done| |].
        -- pose proof (is_chain_truthy _ _ Hchain) as Hall.
           by apply (Forall_take _ (S (S (S rem)))) in Hall.
        -- by apply (NoDup_titles_take (S (S (S rem))) (first :: second :: rest)).
      * rewrite Hwarn, warnings_app. simpl. by rewrite app_nil_r.
Qed.

(** C2 (as amended).  On a subclass chain of [L] categories,
    [get_subcategories] from its first node with [max_depth >= 0] returns the
    first [max_depth + 2] nodes of the chain in order: the nodes of depth at
    most [max_depth], and the node of depth [max_depth + 1], which its parent
    lists before the descent into it is cut; deeper nodes are left out.  The
    one truncation warning names that node of depth [max_depth + 1], and there
    is none when the chain ends before it.  With [max_depth = L - 2] the
    result is the whole chain and the warning names its last node. *)
Theorem chain_depth_bound osw_obj nodes first last_ max_depth tr :
  is_chain osw_obj nodes →
  NoDup (titles nodes) →
  head nodes = Some first →
  last nodes = Some last_ →
  (0 ≤ max_depth)%Z →
  ∃ l tr',
    get_subcategories osw_obj (py_str (title first)) 0 max_depth tr = (Ok l, tr')
    ∧ l = take (Z.to_nat max_depth + 2) nodes
    ∧ warnings tr'
      = warnings tr
          ++ match nodes !! (Z.to_nat max_depth + 1) with
             | Some node => [max_depth_msg max_depth (py_str (title node))]
             | None => []
             end
    ∧ (max_depth = (Z.of_nat (length nodes) - 2)%Z →
       l = nodes
       ∧ warnings tr' = warnings tr ++ [max_depth_msg max_depth (py_str (title last_))]).
Proof.
  intros Hchain Hnd Hhead Hlast Hm.
  destruct nodes as [|first' rest]; [done|]. injection Hhead as ->.
  destruct (chain_run osw_obj max_depth (Z.to_nat max_depth) first rest tr Hchain Hnd)
    as (tr' & Hrun & Hwarn).
  eexists _, tr'. unfold get_subcategories.
  replace (Z.to_nat (max_depth - 0 + 1)) with (S (Z.to_nat max_depth)) by lia.
  replace (Z.to_nat max_depth + 2) with (S (S (Z.to_nat max_depth))) by lia.
  replace (Z.to_nat max_depth + 1) with (S (Z.to_nat max_depth)) by lia.
  split; [done|]. split; [done|]. split; [done|].
  intros HL. split.
  - apply take_ge. simpl in *. lia.
  - rewrite Hwarn. f_equal.
    rewrite last_lookup in Hlast.
    replace (S (Z.to_nat max_depth)) with (pred (length (first :: rest)))
      by (simpl in *; lia).
    by rewrite Hlast.
Qed.

Lemma chain_depth_bound_witness :
  ∃ l tr',
    get_subcategories chain3 (py_str (title (record "Cat:A" "Alpha"))) 0 1 []
    = (Ok l, tr')
    ∧ l = take (Z.to_nat 1 + 2)
            [record "Cat:A" "Alpha"; record "Cat:B" "Beta"; record "Cat:C" "Gamma"]
    ∧ warnings tr'
      = warnings []
          ++ match [record "Cat:A" "Alpha"; record "Cat:B" "Beta";
                    record "Cat:C" "Gamma"] !! (Z.to_nat 1 + 1) with
             | Some node => [max_depth_msg 1 (py_str (title node))]
             | None => []
             end
    ∧ (1%Z = (Z.of_nat (length [record "Cat:A" "Alpha"; record "Cat:B" "Beta";
                                 record "Cat:C" "Gamma"]) - 2)%Z →
       l = [record "Cat:A" "Alpha"; record "Cat:B" "Beta"; record "Cat:C" "Gamma"]
       ∧ warnings tr'
         = warnings [] ++ [max_depth_msg 1 (py_str (title (record "Cat:C" "Gamma")))]).
Proof.
  apply (chain_depth_bound chain3
           [record "Cat:A" "Alpha"; record "Cat:B" "Beta"; record "Cat:C" "Gamma"]
           (record "Cat:A" "Alpha") (record "Cat:C" "Gamma") 1 []).
  - repeat split; vm_compute; reflexivity.
  - apply (bool_decide_unpack _). vm_compute. exact I.
  - reflexivity.
  - reflexivity.
  - lia.
Defined.

(** C2 as stated fails on the chain [Cat:A] -> [Cat:B] -> [Cat:C] ([L = 3])
    with [max_depth = 1]: [Cat:C], of depth 2, is in the result, listed by
    the subclass query of [Cat:B] before the descent into it is cut. *)
Lemma node_beyond_depth_bound_is_listed :
  ∃ l tr',
    get_subcategories chain3 "Cat:A" 0 1 [] = (Ok l, tr')
    ∧ l !! 2 = Some (record "Cat:C" "Gamma")
    ∧ warnings tr' = ["Max depth 1 reached at category Cat:C"].
Proof.
  eexists _, _. split; [vm_compute; reflexivity|]. split; reflexivity.
Qed.

(** *** The manifest *)

Lemma append_assoc (s1 s2 s3 : string) : (s1 +:+ s2) +:+ s3 = s1 +:+ (s2 +:+ s3).
Proof.
  induction s1 as [|c s1 IH]; [done|].
  change (String c ((s1 +:+ s2) +:+ s3) = String c (s1 +:+ (s2 +:+ s3))).
  by rewrite IH.
Qed.

Lemma record_title fpt name : dict_get "title" (record fpt name) = PyStr fpt.
Proof.
  unfold dict_get, record.
  by rewrite lookup_insert_ne, lookup_singleton_eq.
Qed.

Lemma record_name fpt name : dict_get "name" (record fpt name) = PyStr name.
Proof. unfold dict_get, record. by rewrite lookup_insert_eq. Qed.

Lemma entry_line_record fpt name : entry_line (record fpt name) = manifest_line fpt name.
Proof. unfold entry_line. by rewrite record_title, record_name. Qed.

(** C7.  On the store where [Cat:A] has the subclass [Cat:B] (name Beta) and
    [Cat:B] has the instance [Item:1] (name One), whatever the name of
    [Cat:A], [append_all_subcategories_and_instances_to_string] applied to
    the empty string and [Cat:A] returns the header followed by the line of
    [Cat:A], the line of [Cat:B] and the line of [Item:1], in this order. *)
Theorem manifest_lists_category_subclass_instance a_name :
  ∃ text tr',
    append_all_subcategories_and_instances_to_string "" "Cat:A"
      (manifest_store a_name) []
    = (Ok text, tr')
    ∧ text = nl +:+ "# " +:+ a_name +:+ " and all subcategories and instances" +:+ nl
                +:+ manifest_line "Cat:A" a_name
                +:+ manifest_line "Cat:B" "Beta"
                +:+ manifest_line "Item:1" "One"
    ∧ contains_in_order text
        [manifest_line "Cat:A" a_name; manifest_line "Cat:B" "Beta";
         manifest_line "Item:1" "One"].
Proof.
  assert (∃ tr',
            get_all_instances_and_subcategories (manifest_store a_name) "Cat:A" 10 []
            = (Ok [record "Cat:A" a_name; record "Cat:B" "Beta"; record "Item:1" "One"],
               tr')) as [tr' Hitems].
  { eexists. vm_compute. reflexivity. }
  assert (append_dict_to_string ""
            [record "Cat:A" a_name; record "Cat:B" "Beta"; record "Item:1" "One"]
            "and all subcategories and instances" tr'
          = (Ok (nl +:+ "# " +:+ a_name +:+ " and all subcategories and instances" +:+ nl
                    +:+ manifest_line "Cat:A" a_name
                    +:+ manifest_line "Cat:B" "Beta"
                    +:+ manifest_line "Item:1" "One"), tr')) as Hrender.
  { unfold append_dict_to_string. simpl foldl.
    rewrite !entry_line_record, record_name. simpl py_str.
    rewrite !append_assoc. reflexivity. }
  eexists _, tr'. split; [|split; [reflexivity|]].
  - unfold append_all_subcategories_and_instances_to_string.
    by rewrite (bind_ok _ _ _ _ _ Hitems).
  - exists (nl +:+ "# " +:+ a_name +:+ " and all subcategories and instances" +:+ nl),
      (manifest_line "Cat:B" "Beta" +:+ manifest_line "Item:1" "One").
    split; [by rewrite !append_assoc|].
    exists "", (manifest_line "Item:1" "One"). split; [reflexivity|].
    exists "", "". split; [reflexivity|exact I].
Qed.
End GatherFacts.

Module OntologyFacts.
Import AddOntologyMatches OntologySpec.

Lemma label_loop_run (target : string) (qres : list row) :
  ∀ e tr,
    ∃ tr', for_each qres e (take_labels target) tr = (Ok (named_after qres e), tr').
Proof.
  induction qres as [|r qres IH]; intros e tr; [by eexists|].
  simpl. rewrite bind_run. unfold take_labels at 1. rewrite bind_run.
  unfold emit. cbv zeta. unfold mret, M_ret. cbv beta iota.
  match goal with
  | |- context [for_each qres ?e1 _ ?tr1] => destruct (IH e1 tr1) as [tr' Hrest]
  end.
  exists tr'. rewrite Hrest. f_equal. f_equal.
  unfold named_after. destruct qres as [|r' qres]; [done|].
  rewrite last_cons_cons.
  destruct (last (r' :: qres)) as [r0|] eqn:Hlast; [done|].
  by apply last_None in Hlast.
Qed.

Lemma enrich_run data g e target first rest tr :
  data !! iri e = Some target →
  label e = first :: rest →
  ∃ tr',
    enrich data g e tr
    = (Ok (named_after (graph_query g (sparql_query target))
             (set_exact_ontology_match e {[target]})), tr').
Proof.
  intros Hdata Hlabel. unfold enrich. rewrite Hdata. simpl. rewrite Hlabel.
  rewrite !bind_run. unfold emit. simpl.
  destruct (bool_decide _); simpl; apply label_loop_run.
Qed.

Lemma enrich_ok_inv data g e tr e' tr' :
  enrich data g e tr = (Ok e', tr') →
  (data !! iri e = None ∧ e' = e) ∨
  ∃ target first rest,
    data !! iri e = Some target ∧ label e = first :: rest
    ∧ e' = named_after (graph_query g (sparql_query target))
             (set_exact_ontology_match e {[target]}).
Proof.
  intros Hrun. destruct (data !! iri e) as [target|] eqn:Hdata.
  - right. destruct (label e) as [|first rest] eqn:Hlabel.
    + unfold enrich in Hrun. rewrite Hdata in Hrun. simpl in Hrun.
      rewrite Hlabel in Hrun. discriminate.
    + destruct (enrich_run data g e target first rest tr Hdata Hlabel) as [tr1 Hrun'].
      rewrite Hrun' in Hrun. injection Hrun as <- _. by exists target, first, rest.
  - left. split; [done|]. unfold enrich in Hrun. rewrite Hdata in Hrun.
    by injection Hrun as <- _.
Qed.

Lemma named_after_fields qres e :
  iri (named_after qres e) = iri e
  ∧ label (named_after qres e) = label e
  ∧ exact_ontology_match (named_after qres e) = exact_ontology_match e.
Proof. unfold named_after. by destruct (last qres). Qed.

Lemma named_after_again qres e v :
  exact_ontology_match e = Some v →
  named_after qres (set_exact_ontology_match (named_after qres e) v)
  = named_after qres e.
Proof.
  intros Hv. unfold named_after. destruct (last qres) as [r|].
  - unfold set_name, set_exact_ontology_match. simpl. by rewrite Hv.
  - destruct e. simpl in *. unfold set_exact_ontology_match. simpl. by rewrite Hv.
Qed.

(** C8.  The enrichment of an entity is idempotent for a fixed mapping and
    graph: when one pass over an entity ends, a second pass over the outcome
    ends as well and leaves the entity as the first pass left it (the match
    set to the mapped IRI, the name to the preferred label found for it). *)
Theorem enrich_idempotent data g e tr e' tr' :
  enrich data g e tr = (Ok e', tr') →
  ∀ tr0, ∃ tr1, enrich data g e' tr0 = (Ok e', tr1).
Proof.
  intros Hrun tr0.
  destruct (enrich_ok_inv _ _ _ _ _ _ Hrun)
    as [[Hdata ->]|(target & first & rest & Hdata & Hlabel & ->)].
  - exists tr0. unfold enrich. by rewrite Hdata.
  - set (qres := graph_query g (sparql_query target)).
    set (e1 := set_exact_ontology_match e {[target]}).
    destruct (named_after_fields qres e1) as (Hiri & Hlab & _).
    destruct (enrich_run data g (named_after qres e1) target first rest tr0)
      as [tr1 Hrun2]; [by rewrite Hiri|by rewrite Hlab|].
    exists tr1. rewrite Hrun2. f_equal. f_equal. by apply named_after_again.
Qed.

Lemma enrich_idempotent_witness :
  ∃ tr1, enrich mapping small_graph electrode_matched [] = (Ok electrode_matched, tr1).
Proof.
  refine (enrich_idempotent mapping small_graph electrode [] electrode_matched _ _ []).
  vm_compute. reflexivity.
Defined.

End OntologyFacts.

(** * Further properties *)

Module QueryFacts.
Import GatherCategories GatherSpec TraversalSpec GatherFacts.

(** *** The entries of a query *)

Lemma make_entry_fold return_fields result :
  make_entry return_fields result
  = foldl (λ (entry : gmap string pyval) field, <[field := printed result field]> entry)
      ({["title" := fulltext result]} : gmap string pyval) return_fields.
Proof.
  unfold make_entry. generalize ({["title" := fulltext result]} : gmap string pyval).
  induction return_fields as [|field fields IH]; intros entry; [done|].
  simpl. rewrite <- IH. f_equal. unfold printed.
  by destruct (printouts result !! field) as [[|first rest]|].
Qed.

Lemma foldl_insert_lookup (value : string → pyval) fields :
  ∀ (entry : gmap string pyval) key,
    foldl (λ (e : gmap string pyval) field, <[field := value field]> e) entry fields !! key
    = if bool_decide (key ∈ fields) then Some (value key) else entry !! key.
Proof.
  induction fields as [|field fields IH]; intros entry key; [done|].
  simpl. rewrite IH. case_bool_decide as Hin.
  - rewrite bool_decide_eq_true_2; [done|]. by apply list_elem_of_further.
  - destruct (decide (key = field)) as [->|Hne].
    + rewrite lookup_insert_eq, bool_decide_eq_true_2; [done|apply list_elem_of_here].
    + rewrite lookup_insert_ne by done.
      rewrite bool_decide_eq_false_2; [done|]. rewrite not_elem_of_cons. by split.
Qed.

(** X1.  An entry built for a row has the key [title] and one key for each
    requested alias, and nothing else.  Under an alias stands a string: the
    first value printed for it, or the empty string when none was printed.
    Under [title] stands the full title of the row, unless [title] is itself
    one of the requested aliases: then the printed value replaces it. *)
Theorem entry_keys_and_values return_fields result :
  dom (make_entry return_fields result)
  = ({["title"]} ∪ list_to_set return_fields : gset string)
  ∧ (∀ field, field ∈ return_fields →
       make_entry return_fields result !! field = Some (printed result field))
  ∧ ("title" ∉ return_fields →
     dict_get "title" (make_entry return_fields result) = fulltext result)
  ∧ ("title" ∈ return_fields →
     dict_get "title" (make_entry return_fields result) = printed result "title").
Proof.
  rewrite make_entry_fold. split; [|split; [|split]].
  - apply set_eq. intros key. rewrite elem_of_dom, foldl_insert_lookup.
    rewrite elem_of_union, elem_of_singleton, elem_of_list_to_set.
    case_bool_decide as Hin.
    + split; [by right|by eexists].
    + destruct (decide (key = "title")) as [->|Hne].
      * rewrite lookup_singleton_eq. split; [by left|by eexists].
      * rewrite lookup_singleton_ne by done. split; [by intros [? ?]|tauto].
  - intros field Hin. by rewrite foldl_insert_lookup, bool_decide_eq_true_2.
  - intros Hnin. unfold dict_get.
    by rewrite foldl_insert_lookup, bool_decide_eq_false_2, lookup_singleton_eq.
  - intros Hin. unfold dict_get.
    by rewrite foldl_insert_lookup, bool_decide_eq_true_2.
Qed.

(** *** The aliases a query requests *)

Lemma match_printout_other c rest :
  Ascii.eqb c "|" = false → Str.match_printout (String c rest) = None.
Proof.
  destruct c as [[] [] [] [] [] [] [] []]; try discriminate; reflexivity.
Qed.

Lemma findall_aliases_plain text rest :
  no_bar text = true →
  Str.findall_aliases 0 (text +:+ rest) = Str.findall_aliases 0 rest.
Proof.
  induction text as [|c text IH]; [done|]. simpl no_bar.
  intros [Hc Htext]%andb_true_iff. apply negb_true_iff in Hc.
  change (String c text +:+ rest) with (String c (text +:+ rest)).
  cbn [Str.findall_aliases]. rewrite match_printout_other by done. by apply IH.
Qed.

(** X2.  For an identifier without a bar, each of the four queries requests
    the single alias [name]; so every entry answered to it is the full title
    of its row under [title] and the first name printed (or the empty string)
    under [name]. *)
Theorem plain_identifier_requests_name osw_obj fpt :
  no_bar fpt = true →
  Forall (λ query,
            Str.findall_aliases 0 query = ["name"]
            ∧ answer osw_obj query
              = (λ result,
                   <["name" := printed result "name"]>
                     ({["title" := fulltext result]} : gmap string pyval))
                  <$> default [] (mw_site_ask osw_obj query))
    [query_self fpt; query_subclass fpt; query_metacategory fpt; query_schema fpt].
Proof.
  intros Hplain.
  assert (∀ prefix,
            no_bar prefix = true →
            Str.findall_aliases 0 (prefix +:+ fpt +:+ "]]|?HasName=name") = ["name"])
    as Hfields.
  { intros prefix Hprefix. by rewrite !findall_aliases_plain. }
  destruct (queries_spelled_out fpt) as (-> & -> & -> & ->).
  repeat constructor; rewrite ?Hfields by done; try done;
    unfold answer; rewrite Hfields by done;
    destruct (mw_site_ask osw_obj _) as [rows|]; try done;
    simpl; apply list_fmap_ext; intros i r _; by rewrite make_entry_fold.
Qed.

Lemma plain_identifier_requests_name_witness :
  Forall (λ query,
            Str.findall_aliases 0 query = ["name"]
            ∧ answer chain3 query
              = (λ result,
                   <["name" := printed result "name"]>
                     ({["title" := fulltext result]} : gmap string pyval))
                  <$> default [] (mw_site_ask chain3 query))
    [query_self "Cat:A"; query_subclass "Cat:A"; query_metacategory "Cat:A";
     query_schema "Cat:A"].
Proof. apply (plain_identifier_requests_name chain3 "Cat:A"). reflexivity. Defined.

(** *** Queries tell categories apart *)

Lemma append_length (s1 s2 : string) :
  String.length (s1 +:+ s2) = String.length s1 + String.length s2.
Proof.
  induction s1 as [|c s1 IH]; [done|].
  change (String c s1 +:+ s2) with (String c (s1 +:+ s2)). simpl. by rewrite IH.
Qed.

Lemma append_cancel_r (s1 s2 tail : string) : s1 +:+ tail = s2 +:+ tail → s1 = s2.
Proof.
  revert s2. induction s1 as [|c s1 IH]; intros [|d s2] Heq; [done| | |].
  - apply (f_equal String.length) in Heq. rewrite !append_length in Heq.
    simpl in Heq. lia.
  - apply (f_equal String.length) in Heq. rewrite !append_length in Heq.
    simpl in Heq. lia.
  - change (String c (s1 +:+ tail) = String d (s2 +:+ tail)) in Heq.
    injection Heq as -> Heq. f_equal. by apply IH.
Qed.

Lemma append_cancel_l (head s1 s2 : string) : head +:+ s1 = head +:+ s2 → s1 = s2.
Proof.
  induction head as [|c head IH]; [done|].
  change (String c (head +:+ s1) = String c (head +:+ s2) → s1 = s2).
  intros [= Heq]. by apply IH.
Qed.

(** X3.  The query strings tell categories and kinds of lookup apart: each
    of the four queries is injective in the identifier, and queries of two
    different kinds are never the same string, whatever the identifiers. *)
Theorem queries_tell_categories_apart fpt1 fpt2 :
  (query_self fpt1 = query_self fpt2 → fpt1 = fpt2)
  ∧ (query_subclass fpt1 = query_subclass fpt2 → fpt1 = fpt2)
  ∧ (query_metacategory fpt1 = query_metacategory fpt2 → fpt1 = fpt2)
  ∧ (query_schema fpt1 = query_schema fpt2 → fpt1 = fpt2)
  ∧ query_self fpt1 ≠ query_subclass fpt2
  ∧ query_self fpt1 ≠ query_metacategory fpt2
  ∧ query_self fpt1 ≠ query_schema fpt2
  ∧ query_subclass fpt1 ≠ query_metacategory fpt2
  ∧ query_subclass fpt1 ≠ query_schema fpt2
  ∧ query_metacategory fpt1 ≠ query_schema fpt2.
Proof.
  destruct (queries_spelled_out fpt1) as (-> & -> & -> & ->).
  destruct (queries_spelled_out fpt2) as (-> & -> & -> & ->).
  repeat split;
    try (intros Heq%append_cancel_l; by apply append_cancel_r in Heq);
    intros Heq; apply (f_equal (String.get 2)) in Heq; cbv in Heq; discriminate.
Qed.

End QueryFacts.

Module DedupFacts.
Import GatherCategories GatherSpec TraversalSpec GatherFacts.

(** *** The algebra of the deduplication loop *)

Lemma keep_new_truthy seen items :
  Forall (λ x, truthy (title x) = true) (keep_new seen items).
Proof.
  apply Forall_forall. intros x Hx. by apply keep_new_fresh in Hx as (? & _).
Qed.

Lemma keep_new_app seen items1 items2 :
  keep_new seen (items1 ++ items2)
  = keep_new seen items1
      ++ keep_new (seen ++ titles (keep_new seen items1)) items2.
Proof.
  revert seen. induction items1 as [|x items1 IH]; intros seen; simpl.
  - by rewrite app_nil_r.
  - destruct (truthy (title x) && negb (bool_decide (title x ∈ seen))); [|apply IH].
    rewrite IH. simpl. by rewrite <- app_assoc.
Qed.

Lemma keep_new_seen_more seen0 seen items :
  (∀ t, t ∈ seen0 → t ∈ seen) →
  keep_new seen (keep_new seen0 items) = keep_new seen items.
Proof.
  revert seen0 seen. induction items as [|x items IH]; intros seen0 seen Hsub; [done|].
  simpl. destruct (truthy (title x)) eqn:Ht; simpl; [|by apply IH].
  case_bool_decide as Hin0; simpl.
  - rewrite bool_decide_eq_true_2 by (by apply Hsub). simpl. by apply IH.
  - rewrite Ht. simpl. case_bool_decide as Hin; simpl.
    + apply IH. intros t [?| ->%list_elem_of_singleton]%elem_of_app; [by apply Hsub|done].
    + f_equal. apply IH. intros t. rewrite !elem_of_app. intros [?|?]; [|by right].
      left. by apply Hsub.
Qed.

Lemma titles_unique t items :
  t ∈ titles (unique_by_title items) ↔ t ∈ titles items ∧ truthy t = true.
Proof.
  rewrite unique_by_title_keep_new. unfold titles. rewrite !list_elem_of_fmap. split.
  - intros (x & -> & Hx). pose proof (keep_new_sublist [] items) as Hsub.
    apply keep_new_fresh in Hx as Hfresh. destruct Hfresh as (Ht & _ & pre & post & -> & _).
    split; [|done]. exists x. split; [done|]. apply elem_of_app. right.
    apply list_elem_of_here.
  - intros [(y & -> & Hy) Ht].
    apply list_elem_of_fmap.
    apply (keep_new_complete [] items y Hy Ht (not_elem_of_nil _)).
Qed.

(** X4.  The deduplication loop is idempotent, it leaves exactly the lists
    alone that have an identifier on every entry and no identifier twice, and
    a part of the list that was deduplicated on its own before (as the result
    of every recursive call is) gives the same final list as that part left
    as it was. *)
Theorem deduplication_algebra items before inner after :
  unique_by_title (unique_by_title items) = unique_by_title items
  ∧ (unique_by_title items = items
     ↔ NoDup (titles items) ∧ Forall (λ x, truthy (title x) = true) items)
  ∧ unique_by_title (before ++ unique_by_title inner ++ after)
    = unique_by_title (before ++ inner ++ after).
Proof.
  rewrite !unique_by_title_keep_new. split; [|split].
  - apply keep_new_id; [apply keep_new_truthy|apply keep_new_NoDup|].
    intros t _. apply not_elem_of_nil.
  - split.
    + intros <-. split; [apply keep_new_NoDup|apply keep_new_truthy].
    + intros [Hnd Hall]. apply keep_new_id; [done..|]. intros t _. apply not_elem_of_nil.
  - rewrite !(keep_new_app _ before), !(keep_new_app _ inner), !(keep_new_app _ (keep_new _ _)).
    rewrite (keep_new_seen_more [] _ inner); [done|].
    by intros t ?%elem_of_nil.
Qed.

End DedupFacts.

Module TraversalFacts.
Import GatherCategories GatherSpec TraversalSpec ReachSpec GatherFacts DedupFacts.

(** *** The traversal as a function of the answers *)

Lemma for_each_appends {A C : Type} (xs : list A) (body : list C → A → M (list C))
    (val : A → list C) :
  (∀ x acc tr acc' tr', x ∈ xs →
     body acc x tr = (Ok acc', tr') → acc' = acc ++ val x) →
  ∀ acc tr r tr',
    for_each xs acc body tr = (Ok r, tr') → r = acc ++ (xs ≫= val).
Proof.
  induction xs as [|x xs IH]; intros Hbody acc tr r tr'; simpl.
  - intros [= <- _]. by rewrite app_nil_r.
  - intros (acc1 & tr1 & Hx & Hxs)%bind_ok_inv.
    apply Hbody in Hx as ->; [|apply list_elem_of_here].
    apply IH in Hxs as ->; [by rewrite <- app_assoc|].
    intros y acc0 tr0 acc' tr2 Hy. apply Hbody. by apply list_elem_of_further.
Qed.

Lemma get_subcategories_rec_closure osw_obj max_depth rem :
  ∀ category_fpt tr l tr',
    get_subcategories_rec rem osw_obj category_fpt max_depth tr = (Ok l, tr') →
    l = closure_list rem osw_obj category_fpt.
Proof.
  induction rem as [|rem IH]; intros category_fpt tr l tr'.
  - by intros [= <- _].
  - simpl. unfold descend, gather_subcategories.
    rewrite !bind_run, query_return_dict_list_run.
    destruct (answer osw_obj (query_self category_fpt)) as [|first rest]; [done|].
    rewrite bind_run, query_return_dict_list_run.
    destruct (answer osw_obj (query_subclass category_fpt)) as [|r rs] eqn:Hsub.
    + intros [= <- _]. by rewrite app_nil_r.
    + destruct (for_each _ _ _ _) as [[items|e] tr1] eqn:Hloop; [|done].
      intros [= <- _]. f_equal.
      eapply for_each_appends in Hloop; [exact Hloop|].
      intros x acc tr0 acc' tr2 _. simpl. fold (title x).
      destruct (truthy (title x)).
      * intros (sub & tr3 & Hrec & [= <- _])%bind_ok_inv.
        by apply IH in Hrec as ->.
      * intros [= <- _]. by rewrite app_nil_r.
Qed.

Lemma get_subcategories_closure osw_obj category_fpt max_depth tr l tr' :
  (0 ≤ max_depth)%Z →
  get_subcategories osw_obj category_fpt 0 max_depth tr = (Ok l, tr') →
  l = closure_list (S (Z.to_nat max_depth)) osw_obj category_fpt.
Proof.
  intros Hm. unfold get_subcategories.
  replace (Z.to_nat (max_depth - 0 + 1)) with (S (Z.to_nat max_depth)) by lia.
  apply get_subcategories_rec_closure.
Qed.

Lemma get_subcategories_rec_all_found osw_obj max_depth rem category_fpt tr l tr' :
  get_subcategories_rec rem osw_obj category_fpt max_depth tr = (Ok l, tr') →
  all_found rem osw_obj category_fpt = true.
Proof.
  intros Hrun. destruct (all_found rem osw_obj category_fpt) eqn:Hfound; [done|].
  destruct (get_subcategories_rec_not_found rem osw_obj max_depth _ tr Hfound)
    as (e & tr1 & Hraise & _). congruence.
Qed.

(** *** What the traversal lists *)

Lemma closure_list_S osw_obj rem category_fpt :
  closure_list (S rem) osw_obj category_fpt
  = match answer osw_obj (query_self category_fpt) with
    | [] => []
    | first :: _ =>
        unique_by_title
          (([first] ++ answer osw_obj (query_subclass category_fpt))
             ++ (answer osw_obj (query_subclass category_fpt) ≫= λ result,
                   if truthy (title result)
                   then closure_list rem osw_obj (py_str (title result))
                   else []))
    end.
Proof. reflexivity. Qed.

Lemma closure_list_titles osw_obj rem category_fpt first rest t :
  answer osw_obj (query_self category_fpt) = first :: rest →
  t ∈ titles (closure_list (S rem) osw_obj category_fpt)
  ↔ truthy t = true
    ∧ (t = title first
       ∨ t ∈ titles (answer osw_obj (query_subclass category_fpt))
       ∨ ∃ result,
           result ∈ answer osw_obj (query_subclass category_fpt)
           ∧ truthy (title result) = true
           ∧ t ∈ titles (closure_list rem osw_obj (py_str (title result)))).
Proof.
  intros Hself. rewrite closure_list_S, Hself, titles_unique. unfold titles.
  rewrite !fmap_app, !elem_of_app.
  change (title <$> [first]) with [title first]. rewrite list_elem_of_singleton.
  split.
  - intros [Hin Ht]. split; [done|].
    destruct Hin as [[?|?]|Hin]; [by left|by right; left|right; right].
    apply list_elem_of_fmap in Hin as (x & -> & Hx).
    apply list_elem_of_bind in Hx as (result & Hx & Hresult).
    exists result. destruct (truthy (title result)); [|by apply elem_of_nil in Hx].
    split; [done|]. split; [done|]. by apply list_elem_of_fmap_2.
  - intros [Ht Hin]. split; [|done].
    destruct Hin as [?|[?|(result & Hresult & Htr & Hin)]];
      [by left; left|by left; right|].
    right. apply list_elem_of_fmap in Hin as (x & -> & Hx).
    apply list_elem_of_fmap_2, list_elem_of_bind. exists result.
    by rewrite Htr.
Qed.

Lemma closure_list_within osw_obj k category_fpt t :
  within osw_obj k category_fpt t →
  ∀ rem, k ≤ S rem →
    all_found (S rem) osw_obj category_fpt = true →
    t ∈ titles (closure_list (S rem) osw_obj category_fpt).
Proof.
  induction 1 as [category_fpt result Hin Ht|k category_fpt result t Hin Ht Hwithin IH];
    intros rem Hk Hfound; simpl in Hfound;
    destruct (answer osw_obj (query_self category_fpt)) as [|first rest] eqn:Hself;
    try done; rewrite (closure_list_titles _ _ _ _ _ _ Hself).
  - split; [done|]. right; left. by apply list_elem_of_fmap_2.
  - assert (1 ≤ k) as Hk1 by (destruct Hwithin; lia).
    destruct rem as [|rem]; [lia|].
    rewrite forallb_forall in Hfound.
    pose proof (Hfound _ (proj1 (list_elem_of_In _ _) Hin)) as Hchild.
    rewrite Ht in Hchild.
    specialize (IH rem ltac:(lia) Hchild).
    split; [|right; right; exists result; by repeat split].
    rewrite closure_list_S in IH.
    destruct (answer osw_obj (query_self (py_str (title result))));
      [by apply elem_of_nil in IH|].
    by apply titles_unique in IH as [_ ?].
Qed.

(** X5.  Completeness of the traversal: when [get_subcategories] returns
    (with [max_depth >= 0]), every identifier that is reached from the root in
    at most [max_depth + 1] steps along subclass rows is in the list. *)
Theorem subclasses_within_bound_are_listed osw_obj category_fpt max_depth tr l tr' k t :
  (0 ≤ max_depth)%Z →
  get_subcategories osw_obj category_fpt 0 max_depth tr = (Ok l, tr') →
  within osw_obj k category_fpt t →
  (Z.of_nat k ≤ max_depth + 1)%Z →
  t ∈ titles l.
Proof.
  intros Hm Hrun Hwithin Hk.
  rewrite (get_subcategories_closure _ _ _ _ _ _ Hm Hrun).
  apply (closure_list_within _ _ _ _ Hwithin); [lia|].
  unfold get_subcategories in Hrun.
  replace (Z.to_nat (max_depth - 0 + 1)) with (S (Z.to_nat max_depth)) in Hrun by lia.
  by eapply get_subcategories_rec_all_found.
Qed.

Lemma subclasses_within_bound_are_listed_witness :
  PyStr "Cat:D"
  ∈ titles [record "Cat:A" "Alpha"; record "Cat:B" "Beta"; record "Cat:C" "Gamma";
            record "Cat:D" "Delta"].
Proof.
  refine (subclasses_within_bound_are_listed tree_store "Cat:A" 1 [] _ _ 2
            (PyStr "Cat:D") _ _ _ _).
  - lia.
  - vm_compute. reflexivity.
  - apply (within_step tree_store 1 "Cat:A" (record "Cat:B" "Beta")).
    + vm_compute. apply list_elem_of_here.
    + reflexivity.
    + apply (within_child tree_store "Cat:B" (record "Cat:D" "Delta")).
      * vm_compute. apply list_elem_of_here.
      * reflexivity.
  - lia.
Defined.

Lemma closure_list_grows_with_depth osw_obj rem :
  ∀ category_fpt t,
    t ∈ titles (closure_list rem osw_obj category_fpt) →
    t ∈ titles (closure_list (S rem) osw_obj category_fpt).
Proof.
  induction rem as [|rem IH]; intros category_fpt t; [by intros ?%elem_of_nil|].
  destruct (answer osw_obj (query_self category_fpt)) as [|first rest] eqn:Hself.
  - by rewrite !closure_list_S, Hself.
  - rewrite !(closure_list_titles _ _ _ _ _ _ Hself).
    intros [Ht [?|[?|(result & Hin & Hr & Hsub)]]]; (split; [done|]);
      [by left|by right; left|].
    right; right. exists result. repeat split; [done..|]. by apply IH.
Qed.

Lemma closure_list_grows_with_depths osw_obj rem extra category_fpt t :
  t ∈ titles (closure_list rem osw_obj category_fpt) →
  t ∈ titles (closure_list (rem + extra) osw_obj category_fpt).
Proof.
  induction extra as [|extra IH]; intros Hin.
  - by replace (rem + 0) with rem by lia.
  - replace (rem + S extra) with (S (rem + extra)) by lia.
    by apply closure_list_grows_with_depth, IH.
Qed.

(** X6.  A larger depth bound loses nothing: every identifier listed with
    [max_depth] is listed with any [max_depth' >= max_depth], when both
    calls return. *)
Theorem larger_bound_keeps_identifiers osw_obj category_fpt max_depth max_depth'
    tr l tr' tr0 l0 tr0' t :
  (0 ≤ max_depth ≤ max_depth')%Z →
  get_subcategories osw_obj category_fpt 0 max_depth tr = (Ok l, tr') →
  get_subcategories osw_obj category_fpt 0 max_depth' tr0 = (Ok l0, tr0') →
  t ∈ titles l →
  t ∈ titles l0.
Proof.
  intros Hm Hrun Hrun0.
  assert (0 ≤ max_depth)%Z as Hm1 by lia.
  assert (0 ≤ max_depth')%Z as Hm2 by lia.
  rewrite (get_subcategories_closure _ _ _ _ _ _ Hm1 Hrun).
  rewrite (get_subcategories_closure _ _ _ _ _ _ Hm2 Hrun0).
  replace (S (Z.to_nat max_depth'))
    with (S (Z.to_nat max_depth) + (Z.to_nat max_depth' - Z.to_nat max_depth)) by lia.
  apply closure_list_grows_with_depths.
Qed.

Lemma larger_bound_keeps_identifiers_witness :
  PyStr "Cat:C"
  ∈ titles [record "Cat:A" "Alpha"; record "Cat:B" "Beta"; record "Cat:C" "Gamma";
            record "Cat:D" "Delta"].
Proof.
  refine (larger_bound_keeps_identifiers tree_store "Cat:A" 0 1 [] _ _ [] _ _
            (PyStr "Cat:C") _ _ _ _).
  - lia.
  - vm_compute. reflexivity.
  - vm_compute. reflexivity.
  - vm_compute. apply list_elem_of_further, list_elem_of_further, list_elem_of_here.
Defined.

Lemma closure_list_from_store osw_obj rem :
  ∀ category_fpt x,
    x ∈ closure_list rem osw_obj category_fpt → from_store osw_obj x.
Proof.
  induction rem as [|rem IH]; intros category_fpt x; [by intros ?%elem_of_nil|].
  rewrite closure_list_S.
  destruct (answer osw_obj (query_self category_fpt)) as [|first rest] eqn:Hself;
    [by intros ?%elem_of_nil|].
  rewrite unique_by_title_keep_new. intros Hx.
  eapply elem_of_sublist in Hx; [|apply keep_new_sublist].
  rewrite !elem_of_app, list_elem_of_singleton in Hx.
  destruct Hx as [[->|Hx]|Hx].
  - exists category_fpt. left. by rewrite Hself.
  - exists category_fpt. by right.
  - apply list_elem_of_bind in Hx as (result & Hx & _).
    destruct (truthy (title result)); [by eapply IH|by apply elem_of_nil in Hx].
Qed.

(** X7.  The traversal lists rows of the store and nothing else: every
    entry of a list that [get_subcategories] returns is, unchanged, the first
    row of some self-lookup or a row of some subclass query. *)
Theorem listed_entries_are_store_rows osw_obj category_fpt depth max_depth tr l tr' :
  get_subcategories osw_obj category_fpt depth max_depth tr = (Ok l, tr') →
  Forall (from_store osw_obj) l.
Proof.
  intros Hrun. apply get_subcategories_rec_closure in Hrun as ->.
  apply Forall_forall. intros x. apply closure_list_from_store.
Qed.

Lemma listed_entries_are_store_rows_witness :
  Forall (from_store chain3)
    [record "Cat:A" "Alpha"; record "Cat:B" "Beta"; record "Cat:C" "Gamma"].
Proof.
  refine (listed_entries_are_store_rows chain3 "Cat:A" 0 5 [] _ _ _).
  vm_compute. reflexivity.
Defined.

(** *** A traversal that is not truncated *)

Lemma grows_bind {A B : Type} (m : M A) (f : A → M B) :
  grows m → (∀ a, grows (f a)) → grows (m ≫= f).
Proof.
  intros Hm Hf tr o tr'. rewrite bind_run.
  destruct (m tr) as [[a|e] tr1] eqn:Hrun; apply Hm in Hrun as [added1 ->].
  - intros [added2 ->]%Hf. exists (added1 ++ added2). by rewrite app_assoc.
  - intros [= _ <-]. by exists added1.
Qed.

Lemma grows_ret {A : Type} (a : A) : grows (mret a).
Proof. intros tr o tr' [= _ <-]. exists []. by rewrite app_nil_r. Qed.

Lemma grows_raise {A : Type} (e : exn) : grows (@raise A e).
Proof. intros tr o tr' [= _ <-]. exists []. by rewrite app_nil_r. Qed.

Lemma grows_emit (e : event) : grows (emit e).
Proof. intros tr o tr' [= _ <-]. by exists [e]. Qed.

Lemma grows_for_each {A B : Type} (xs : list A) (body : B → A → M B) :
  (∀ acc x, grows (body acc x)) → ∀ acc, grows (for_each xs acc body).
Proof.
  intros Hbody. induction xs as [|x xs IH]; intros acc; simpl.
  - apply grows_ret.
  - apply grows_bind; [apply Hbody|apply IH].
Qed.

Lemma grows_query_return_dict_list osw_obj query :
  grows (query_return_dict_list osw_obj query).
Proof.
  intros tr o tr'. rewrite query_return_dict_list_run. intros [= _ <-]. by eexists.
Qed.

Lemma grows_get_subcategories_rec osw_obj max_depth rem :
  ∀ category_fpt, grows (get_subcategories_rec rem osw_obj category_fpt max_depth).
Proof.
  induction rem as [|rem IH]; intros category_fpt; simpl.
  - apply grows_bind; [apply grows_emit|intros; apply grows_ret].
  - unfold descend, gather_subcategories.
    apply grows_bind; [|intros; apply grows_ret].
    apply grows_bind; [apply grows_query_return_dict_list|].
    intros [|first rest]; [apply grows_raise|].
    apply grows_bind; [apply grows_query_return_dict_list|].
    intros [|r rs]; [apply grows_ret|].
    apply grows_for_each. intros acc x. simpl.
    destruct (truthy _); [|apply grows_ret].
    apply grows_bind; [apply IH|intros; apply grows_ret].
Qed.

Lemma no_new_warnings tr added1 added2 :
  warnings ((tr ++ added1) ++ added2) = warnings tr →
  warnings (tr ++ added1) = warnings tr
  ∧ warnings ((tr ++ added1) ++ added2) = warnings (tr ++ added1).
Proof.
  rewrite !warnings_app. intros Heq.
  assert (warnings added1 = [] ∧ warnings added2 = []) as [-> ->].
  { apply (f_equal length) in Heq. rewrite !length_app in Heq.
    split; apply length_zero_iff_nil; lia. }
  by rewrite !app_nil_r.
Qed.

Lemma for_each_without_warnings {A B : Type} (xs : list A) (body body' : B → A → M B) :
  (∀ acc x, grows (body acc x)) →
  (∀ x acc tr acc' tr',
     body acc x tr = (Ok acc', tr') → warnings tr' = warnings tr →
     body' acc x tr = (Ok acc', tr')) →
  ∀ acc tr r tr',
    for_each xs acc body tr = (Ok r, tr') → warnings tr' = warnings tr →
    for_each xs acc body' tr = (Ok r, tr').
Proof.
  intros Hgrows Hsame. induction xs as [|x xs IH]; intros acc tr r tr'; [done|].
  simpl. intros (acc1 & tr1 & Hx & Hxs)%bind_ok_inv Hwarn.
  destruct (Hgrows _ _ _ _ _ Hx) as [added1 ->].
  destruct (grows_for_each xs body Hgrows _ _ _ _ Hxs) as [added2 ->].
  apply no_new_warnings in Hwarn as [Hwarn1 Hwarn2].
  rewrite (bind_ok _ _ _ _ _ (Hsame _ _ _ _ _ Hx Hwarn1)). by apply IH.
Qed.

Lemma get_subcategories_rec_without_warnings osw_obj max_depth max_depth' extra rem :
  ∀ category_fpt tr l tr',
    get_subcategories_rec rem osw_obj category_fpt max_depth tr = (Ok l, tr') →
    warnings tr' = warnings tr →
    get_subcategories_rec (rem + extra) osw_obj category_fpt max_depth' tr = (Ok l, tr').
Proof.
  induction rem as [|rem IH]; intros category_fpt tr l tr'.
  - intros [= _ <-]. rewrite warnings_app. simpl. intros Heq.
    apply (f_equal length) in Heq. rewrite length_app in Heq. simpl in Heq. lia.
  - simpl. unfold descend, gather_subcategories.
    rewrite !bind_run, !query_return_dict_list_run.
    destruct (answer osw_obj (query_self category_fpt)) as [|first rest]; [done|].
    rewrite !bind_run, !query_return_dict_list_run.
    destruct (answer osw_obj (query_subclass category_fpt)) as [|r rs]; [done|].
    destruct (for_each _ _ _ _) as [[items|e] tr1] eqn:Hloop; [|done].
    intros [= <- <-] Hwarn.
    eapply for_each_without_warnings in Hloop as ->; [done| | |].
    + intros acc x. simpl. destruct (truthy _); [|apply grows_ret].
      apply grows_bind; [apply grows_get_subcategories_rec|intros; apply grows_ret].
    + intros x acc tr0 acc' tr2. simpl. destruct (truthy _); [|done].
      intros (sub & tr3 & Hrec & [= <- <-])%bind_ok_inv Hw.
      by rewrite (bind_ok _ _ _ _ _ (IH _ _ _ _ Hrec Hw)).
    + rewrite Hwarn, !warnings_app. simpl. by rewrite !app_nil_r.
Qed.

(** X8.  A traversal that logs no truncation warning is complete: when
    [get_subcategories] returns without having added a warning, it returns the
    same list, after the same queries, for every larger [max_depth]. *)
Theorem no_warning_means_closure osw_obj category_fpt max_depth max_depth' tr l tr' :
  (0 ≤ max_depth ≤ max_depth')%Z →
  get_subcategories osw_obj category_fpt 0 max_depth tr = (Ok l, tr') →
  warnings tr' = warnings tr →
  get_subcategories osw_obj category_fpt 0 max_depth' tr = (Ok l, tr').
Proof.
  intros Hm Hrun Hwarn. unfold get_subcategories in *.
  replace (Z.to_nat (max_depth' - 0 + 1))
    with (Z.to_nat (max_depth - 0 + 1) + Z.to_nat (max_depth' - max_depth)) by lia.
  by eapply get_subcategories_rec_without_warnings.
Qed.

Lemma no_warning_means_closure_witness :
  get_subcategories chain3 "Cat:A" 0 7 []
  = (Ok [record "Cat:A" "Alpha"; record "Cat:B" "Beta"; record "Cat:C" "Gamma"],
     [Asked (query_self "Cat:A"); Asked (query_subclass "Cat:A");
      Asked (query_self "Cat:B"); Asked (query_subclass "Cat:B");
      Asked (query_self "Cat:C"); Asked (query_subclass "Cat:C")]).
Proof.
  refine (no_warning_means_closure chain3 "Cat:A" 2 7 [] _ _ _ _ _).
  - lia.
  - vm_compute. reflexivity.
  - reflexivity.
Defined.

End TraversalFacts.

Module AggregateFacts.
Import GatherCategories GatherSpec TraversalSpec GatherFacts DedupFacts.

(** *** Meta-categories and instances on top of the traversal *)

Lemma get_subcategories_result_fixed osw_obj category_fpt depth max_depth tr l tr' :
  get_subcategories osw_obj category_fpt depth max_depth tr = (Ok l, tr') →
  NoDup (titles l) ∧ Forall (λ x, truthy (title x) = true) l.
Proof.
  intros [[_ ->]|(items & _ & ->)]%get_subcategories_deduplicated.
  - split; constructor.
  - rewrite unique_by_title_keep_new. split; [apply keep_new_NoDup|apply keep_new_truthy].
Qed.

Lemma metacategory_asks_all subcategories :
  Forall (λ x, truthy (title x) = true) subcategories →
  metacategory_asks subcategories
  = (λ subcat, Asked (query_metacategory (py_str (title subcat)))) <$> subcategories.
Proof.
  induction 1 as [|x xs Hx _ IH]; [done|].
  unfold metacategory_asks in *. rewrite bind_cons, fmap_cons, Hx, IH. done.
Qed.

Lemma get_subcategories_and_metacategories_ok osw_obj category_fpt max_depth tr
    subcategories tr1 :
  get_subcategories osw_obj category_fpt 0 max_depth tr = (Ok subcategories, tr1) →
  get_subcategories_and_metacategories osw_obj category_fpt max_depth tr
  = (Ok (subcategories ++ metacategories_of osw_obj subcategories),
     tr1 ++ metacategory_asks subcategories).
Proof.
  intros Hrun. unfold get_subcategories_and_metacategories.
  rewrite (bind_ok _ _ _ _ _ Hrun), bind_run, metacategory_loop_run. done.
Qed.

(** X9.  [get_subcategories_and_metacategories] adds no failure and no
    gap to the traversal: when [get_subcategories] raises, it ends with the
    same exception and trace; when it returns, the call returns its list
    followed by the rows of the meta-category queries, and has sent after the
    traversal exactly one meta-category query for each listed subcategory, in
    the order of the list. *)
Theorem metacategory_stage osw_obj category_fpt max_depth tr o tr1 :
  get_subcategories osw_obj category_fpt 0 max_depth tr = (o, tr1) →
  get_subcategories_and_metacategories osw_obj category_fpt max_depth tr
  = match o with
    | Ok subcategories =>
        (Ok (subcategories ++ metacategories_of osw_obj subcategories),
         tr1 ++ ((λ subcat, Asked (query_metacategory (py_str (title subcat))))
                   <$> subcategories))
    | Raised e => (Raised e, tr1)
    end.
Proof.
  intros Hrun. destruct o as [subcategories|e].
  - rewrite (get_subcategories_and_metacategories_ok _ _ _ _ _ _ Hrun).
    apply get_subcategories_result_fixed in Hrun as [_ Hall].
    by rewrite metacategory_asks_all.
  - unfold get_subcategories_and_metacategories.
    by rewrite (bind_raised _ _ _ _ _ Hrun).
Qed.

Lemma metacategory_stage_witness :
  get_subcategories_and_metacategories shared_meta "Cat:A" 5 []
  = (Ok ([record "Cat:A" "Alpha"; record "Cat:B" "Beta"]
           ++ metacategories_of shared_meta
                [record "Cat:A" "Alpha"; record "Cat:B" "Beta"]),
     [Asked (query_self "Cat:A"); Asked (query_subclass "Cat:A");
      Asked (query_self "Cat:B"); Asked (query_subclass "Cat:B")]
       ++ ((λ subcat, Asked (query_metacategory (py_str (title subcat))))
             <$> [record "Cat:A" "Alpha"; record "Cat:B" "Beta"])).
Proof.
  refine (metacategory_stage shared_meta "Cat:A" 5 []
            (Ok [record "Cat:A" "Alpha"; record "Cat:B" "Beta"]) _ _).
  vm_compute. reflexivity.
Defined.

Lemma get_all_instances_and_subcategories_run osw_obj category_fpt max_depth tr
    subcategories tr1 :
  get_subcategories osw_obj category_fpt 0 max_depth tr = (Ok subcategories, tr1) →
  get_all_instances_and_subcategories osw_obj category_fpt max_depth tr
  = (Ok (unique_by_title
           ((subcategories ++ metacategories_of osw_obj subcategories)
              ++ instances_of osw_obj
                   (subcategories ++ metacategories_of osw_obj subcategories))),
     (tr1 ++ metacategory_asks subcategories)
       ++ instance_asks (subcategories ++ metacategories_of osw_obj subcategories)).
Proof.
  intros Hrun. unfold get_all_instances_and_subcategories, gather_all_items.
  rewrite bind_run.
  rewrite (bind_ok _ _ _ _ _ (get_subcategories_and_metacategories_ok _ _ _ _ _ _ Hrun)).
  by rewrite instance_loop_run.
Qed.

(** X10.  The aggregate keeps the traversal at its head: when
    [get_subcategories] returns a list, [get_all_instances_and_subcategories]
    returns that list, entry for entry and in the same order, followed by
    entries of other identifiers only; it has sent, after the traversal, the
    meta-category queries of the listed subcategories and then a self-lookup
    and a schema query for every category and meta-category that has an
    identifier. *)
Theorem aggregate_starts_with_traversal osw_obj category_fpt max_depth tr
    subcategories tr1 :
  get_subcategories osw_obj category_fpt 0 max_depth tr = (Ok subcategories, tr1) →
  ∃ more,
    get_all_instances_and_subcategories osw_obj category_fpt max_depth tr
    = (Ok (subcategories ++ more),
       (tr1 ++ metacategory_asks subcategories)
         ++ instance_asks (subcategories ++ metacategories_of osw_obj subcategories))
    ∧ Forall (λ x, title x ∉ titles subcategories) more.
Proof.
  intros Hrun. rewrite (get_all_instances_and_subcategories_run _ _ _ _ _ _ Hrun).
  apply get_subcategories_result_fixed in Hrun as [Hnd Hall].
  rewrite unique_by_title_keep_new, <- app_assoc, keep_new_app.
  rewrite (keep_new_id [] subcategories); [|done..|intros t _; apply not_elem_of_nil].
  eexists. split; [done|].
  apply Forall_forall. intros x Hx. by apply keep_new_fresh in Hx as (_ & ? & _).
Qed.

Lemma aggregate_starts_with_traversal_witness :
  ∃ more,
    get_all_instances_and_subcategories tree_store "Cat:A" 5 []
    = (Ok ([record "Cat:A" "Alpha"; record "Cat:B" "Beta"; record "Cat:C" "Gamma";
            record "Cat:D" "Delta"] ++ more),
       ([Asked (query_self "Cat:A"); Asked (query_subclass "Cat:A");
         Asked (query_self "Cat:B"); Asked (query_subclass "Cat:B");
         Asked (query_self "Cat:D"); Asked (query_subclass "Cat:D");
         Asked (query_self "Cat:C"); Asked (query_subclass "Cat:C")]
          ++ metacategory_asks
               [record "Cat:A" "Alpha"; record "Cat:B" "Beta"; record "Cat:C" "Gamma";
                record "Cat:D" "Delta"])
         ++ instance_asks
              ([record "Cat:A" "Alpha"; record "Cat:B" "Beta"; record "Cat:C" "Gamma";
                record "Cat:D" "Delta"]
                 ++ metacategories_of tree_store
                      [record "Cat:A" "Alpha"; record "Cat:B" "Beta";
                       record "Cat:C" "Gamma"; record "Cat:D" "Delta"]))
    ∧ Forall (λ x, title x ∉ titles [record "Cat:A" "Alpha"; record "Cat:B" "Beta";
                                      record "Cat:C" "Gamma"; record "Cat:D" "Delta"])
        more.
Proof.
  apply (aggregate_starts_with_traversal tree_store "Cat:A" 5 []).
  vm_compute. reflexivity.
Defined.

(** X11.  The aggregate loses no identifier: when
    [get_all_instances_and_subcategories] returns, its list holds the
    identifier of every meta-category row of a listed subcategory, and of
    every row (with an identifier) that the self-lookup or the schema query of
    a listed category or meta-category returns. *)
Theorem aggregate_covers_instances osw_obj category_fpt max_depth tr l tr'
    subcategories tr1 :
  get_subcategories osw_obj category_fpt 0 max_depth tr = (Ok subcategories, tr1) →
  get_all_instances_and_subcategories osw_obj category_fpt max_depth tr = (Ok l, tr') →
  ∀ cat,
    cat ∈ subcategories ++ metacategories_of osw_obj subcategories →
    truthy (title cat) = true →
    title cat ∈ titles l
    ∧ ∀ inst,
        inst ∈ answer osw_obj (query_self (py_str (title cat)))
                 ++ answer osw_obj (query_schema (py_str (title cat))) →
        truthy (title inst) = true →
        title inst ∈ titles l.
Proof.
  intros Hsub Hrun cat Hcat Ht.
  rewrite (get_all_instances_and_subcategories_run _ _ _ _ _ _ Hsub) in Hrun.
  injection Hrun as <- _. split.
  - apply titles_unique. split; [|done].
    apply list_elem_of_fmap_2, elem_of_app. by left.
  - intros inst Hinst Hti. apply titles_unique. split; [|done].
    apply list_elem_of_fmap_2, elem_of_app. right.
    apply list_elem_of_bind. exists cat. by rewrite Ht.
Qed.

Lemma aggregate_covers_instances_witness :
  title (record "Cat:D" "Delta")
  ∈ titles [record "Cat:A" "Alpha"; record "Cat:B" "Beta"; record "Cat:C" "Gamma";
            record "Cat:D" "Delta"; record "Cat:M" "Meta"; record "Item:1" "One"]
  ∧ ∀ inst,
      inst ∈ answer tree_store (query_self (py_str (title (record "Cat:D" "Delta"))))
               ++ answer tree_store
                    (query_schema (py_str (title (record "Cat:D" "Delta")))) →
      truthy (title inst) = true →
      title inst
      ∈ titles [record "Cat:A" "Alpha"; record "Cat:B" "Beta"; record "Cat:C" "Gamma";
                record "Cat:D" "Delta"; record "Cat:M" "Meta"; record "Item:1" "One"].
Proof.
  refine (aggregate_covers_instances tree_store "Cat:A" 5 [] _ _
            [record "Cat:A" "Alpha"; record "Cat:B" "Beta"; record "Cat:C" "Gamma";
             record "Cat:D" "Delta"] _ _ _ (record "Cat:D" "Delta") _ _).
  - vm_compute. reflexivity.
  - vm_compute. reflexivity.
  - apply elem_of_app. left. do 3 apply list_elem_of_further. apply list_elem_of_here.
  - reflexivity.
Defined.

(** X19.  Below the depth bound nothing is looked up: a call of
    [get_subcategories] with [depth > max_depth] returns the empty list with
    one warning and no query, whether the category exists or not; so with a
    negative [max_depth] the two aggregating operations return the empty list
    as well, after that one warning, and raise no not-found error. *)
Theorem beyond_bound_nothing_is_asked osw_obj category_fpt depth max_depth tr :
  ((depth > max_depth)%Z →
   get_subcategories osw_obj category_fpt depth max_depth tr
   = (Ok [], tr ++ [Warned (max_depth_msg max_depth category_fpt)]))
  ∧ ((max_depth < 0)%Z →
     get_subcategories_and_metacategories osw_obj category_fpt max_depth tr
     = (Ok [], tr ++ [Warned (max_depth_msg max_depth category_fpt)])
     ∧ get_all_instances_and_subcategories osw_obj category_fpt max_depth tr
       = (Ok [], tr ++ [Warned (max_depth_msg max_depth category_fpt)])).
Proof.
  split.
  - apply get_subcategories_truncated.
  - intros Hm.
    assert (get_subcategories osw_obj category_fpt 0 max_depth tr
            = (Ok [], tr ++ [Warned (max_depth_msg max_depth category_fpt)])) as Hrun
      by (apply get_subcategories_truncated; lia).
    split.
    + rewrite (get_subcategories_and_metacategories_ok _ _ _ _ _ _ Hrun).
      simpl. by rewrite app_nil_r.
    + rewrite (get_all_instances_and_subcategories_run _ _ _ _ _ _ Hrun).
      simpl. by rewrite !app_nil_r.
Qed.

End AggregateFacts.

Module RenderFacts.
Import GatherCategories GatherSpec TraversalSpec GatherFacts DedupFacts AggregateFacts.

(** *** The text the renderers add *)

Lemma append_empty_r (s : string) : s +:+ "" = s.
Proof.
  induction s as [|c s IH]; [done|].
  change (String c (s +:+ "") = String c s). by rewrite IH.
Qed.

Lemma foldl_entry_lines records :
  ∀ text, foldl (λ s cat, s +:+ entry_line cat) text records = text +:+ lines_of records.
Proof.
  induction records as [|cat records IH]; intros text; simpl.
  - by rewrite append_empty_r.
  - by rewrite IH, append_assoc.
Qed.

Lemma lines_of_app records1 records2 :
  lines_of (records1 ++ records2) = lines_of records1 +:+ lines_of records2.
Proof.
  induction records1 as [|cat records1 IH]; [done|].
  simpl. by rewrite IH, append_assoc.
Qed.

Lemma append_dict_to_string_run string_ first rest note tr :
  append_dict_to_string string_ (first :: rest) note tr
  = (Ok (string_ +:+ block_of (py_str (dict_get "name" first)) note (first :: rest)), tr).
Proof.
  unfold append_dict_to_string, block_of. rewrite foldl_entry_lines.
  by rewrite !append_assoc.
Qed.

Lemma append_instances_to_string_run string_ category_fpt osw_obj first rest tr :
  answer osw_obj (query_self category_fpt) = first :: rest →
  append_instances_to_string string_ category_fpt osw_obj tr
  = (Ok (string_ +:+ nl +:+ "# Instances of " +:+ py_str (dict_get "name" first) +:+ nl
                 +:+ lines_of (rest ++ answer osw_obj (query_schema category_fpt))),
     tr ++ [Asked (query_self category_fpt); Asked (query_schema category_fpt)]).
Proof.
  intros Hself. unfold append_instances_to_string.
  rewrite bind_run, get_instances_run, Hself. simpl.
  by rewrite foldl_entry_lines, !append_assoc.
Qed.

(** X12.  [append_dict_to_string] only appends: for a non-empty list the
    result is the given text, untouched, followed by a block that does not
    depend on it: the comment line with the name of the first record and the
    note, then one line per record in the order of the list; no query is sent.
    The lines of two lists put together are the lines of the one followed by
    the lines of the other. *)
Theorem append_dict_to_string_appends_block string_ first rest note tr more :
  append_dict_to_string string_ (first :: rest) note tr
  = (Ok (string_ +:+ nl +:+ "# " +:+ py_str (dict_get "name" first) +:+ " " +:+ note
                 +:+ nl +:+ lines_of (first :: rest)), tr)
  ∧ lines_of ((first :: rest) ++ more)
    = entry_line first +:+ lines_of rest +:+ lines_of more.
Proof.
  split.
  - by rewrite append_dict_to_string_run.
  - rewrite lines_of_app.
    change (lines_of (first :: rest)) with (entry_line first +:+ lines_of rest).
    by rewrite append_assoc.
Qed.

(** X13.  [append_subcategories_and_instances_to_string] on a category
    whose self-lookup starts with a row that has an identifier never fails on
    an empty list.  When the categories met within its depth bound of 10 all
    have a row of their own, it returns the given text followed by the block
    of the subcategories and meta-categories (the category's own record
    first) and the block of the instances, both headed by the name of the
    category; otherwise it ends in the not-found error of a missing one. *)
Theorem subcategories_and_instances_blocks string_ category_fpt osw_obj first rest tr :
  answer osw_obj (query_self category_fpt) = first :: rest →
  truthy (title first) = true →
  if all_found 11 osw_obj category_fpt
  then
    ∃ others tr1 tr',
      get_subcategories_and_metacategories osw_obj category_fpt 10 tr
      = (Ok (first :: others), tr1)
      ∧ append_subcategories_and_instances_to_string string_ category_fpt osw_obj tr
        = (Ok (string_
                 +:+ block_of (py_str (dict_get "name" first))
                       ", subcategories and meta categories" (first :: others)
                 +:+ nl +:+ "# Instances of " +:+ py_str (dict_get "name" first) +:+ nl
                 +:+ lines_of (rest ++ answer osw_obj (query_schema category_fpt))),
           tr')
  else
    ∃ e tr',
      append_subcategories_and_instances_to_string string_ category_fpt osw_obj tr
      = (Raised e, tr')
      ∧ missing_category osw_obj e.
Proof.
  intros Hself Ht.
  unfold append_subcategories_and_instances_to_string, append_subcategories_to_string.
  change 11 with (Z.to_nat (10 + 1)).
  destruct (all_found (Z.to_nat (10 + 1)) osw_obj category_fpt) eqn:Hfound.
  - destruct (get_subcategories_root_first osw_obj category_fpt 10 first rest tr
                ltac:(lia) Hself Ht Hfound) as (l & tr1 & Hsub).
    pose proof (get_subcategories_and_metacategories_ok _ _ _ _ _ _ Hsub) as Hcats.
    rewrite <- app_comm_cons in Hcats.
    eexists _, _, _. split; [exact Hcats|].
    rewrite bind_run, (bind_ok _ _ _ _ _ Hcats), append_dict_to_string_run.
    rewrite (append_instances_to_string_run _ _ _ _ _ _ Hself).
    by rewrite !append_assoc.
  - destruct (get_subcategories_rec_not_found _ osw_obj 10 category_fpt tr Hfound)
      as (e & tr' & Hraise & He).
    exists e, tr'. split; [|done].
    unfold get_subcategories_and_metacategories, get_subcategories.
    change (Z.to_nat (10 - 0 + 1)) with (Z.to_nat (10 + 1)).
    by rewrite !bind_run, Hraise.
Qed.

Lemma subcategories_and_instances_blocks_witness :
  ∃ others tr1 tr',
    get_subcategories_and_metacategories both_queries "Cat:C" 10 []
    = (Ok (record "Cat:C" "Gamma" :: others), tr1)
    ∧ append_subcategories_and_instances_to_string "" "Cat:C" both_queries []
      = (Ok (""
               +:+ block_of (py_str (dict_get "name" (record "Cat:C" "Gamma")))
                     ", subcategories and meta categories"
                     (record "Cat:C" "Gamma" :: others)
               +:+ nl +:+ "# Instances of "
               +:+ py_str (dict_get "name" (record "Cat:C" "Gamma")) +:+ nl
               +:+ lines_of ([] ++ answer both_queries (query_schema "Cat:C"))),
         tr').
Proof.
  exact (subcategories_and_instances_blocks "" "Cat:C" both_queries
           (record "Cat:C" "Gamma") [] [] eq_refl eq_refl).
Defined.

(** X14.  The full manifest of a category whose self-lookup starts with a
    row that has an identifier.  When the categories met within the depth
    bound of 10 all have a row of their own,
    [append_all_subcategories_and_instances_to_string] returns the given text
    followed by one block, headed by the name of the category, whose first
    line is the category's own and in which every line is the line of a
    record with an identifier of its own (none empty, none twice); otherwise
    it ends in the not-found error of a missing category. *)
Theorem full_manifest_block string_ category_fpt osw_obj first rest tr :
  answer osw_obj (query_self category_fpt) = first :: rest →
  truthy (title first) = true →
  if all_found 11 osw_obj category_fpt
  then
    ∃ others tr',
      append_all_subcategories_and_instances_to_string string_ category_fpt osw_obj tr
      = (Ok (string_
               +:+ block_of (py_str (dict_get "name" first))
                     "and all subcategories and instances" (first :: others)),
         tr')
      ∧ NoDup (titles (first :: others))
      ∧ Forall (λ x, truthy (title x) = true) (first :: others)
  else
    ∃ e tr',
      append_all_subcategories_and_instances_to_string string_ category_fpt osw_obj tr
      = (Raised e, tr')
      ∧ missing_category osw_obj e.
Proof.
  intros Hself Ht.
  unfold append_all_subcategories_and_instances_to_string.
  change 11 with (Z.to_nat (10 + 1)).
  destruct (all_found (Z.to_nat (10 + 1)) osw_obj category_fpt) eqn:Hfound.
  - destruct (get_subcategories_root_first osw_obj category_fpt 10 first rest tr
                ltac:(lia) Hself Ht Hfound) as (l & tr1 & Hsub).
    pose proof (get_all_instances_and_subcategories_run _ _ _ _ _ _ Hsub) as Hall.
    rewrite <- !app_comm_cons, unique_by_title_keep_new in Hall.
    rewrite keep_new_cons_new in Hall; [|done|apply not_elem_of_nil].
    rewrite (bind_ok _ _ _ _ _ Hall), append_dict_to_string_run.
    eexists _, _. split; [done|].
    rewrite <- keep_new_cons_new; [|done|apply not_elem_of_nil].
    split; [apply keep_new_NoDup|apply keep_new_truthy].
  - destruct (get_subcategories_rec_not_found _ osw_obj 10 category_fpt tr Hfound)
      as (e & tr' & Hraise & He).
    exists e, tr'. split; [|done].
    unfold get_all_instances_and_subcategories, gather_all_items,
      get_subcategories_and_metacategories, get_subcategories.
    change (Z.to_nat (10 - 0 + 1)) with (Z.to_nat (10 + 1)).
    by rewrite !bind_run, Hraise.
Qed.

Lemma full_manifest_block_witness :
  ∃ others tr',
    append_all_subcategories_and_instances_to_string "" "Cat:A" tree_store []
    = (Ok (""
             +:+ block_of (py_str (dict_get "name" (record "Cat:A" "Alpha")))
                   "and all subcategories and instances"
                   (record "Cat:A" "Alpha" :: others)),
       tr')
    ∧ NoDup (titles (record "Cat:A" "Alpha" :: others))
    ∧ Forall (λ x, truthy (title x) = true) (record "Cat:A" "Alpha" :: others).
Proof.
  exact (full_manifest_block "" "Cat:A" tree_store (record "Cat:A" "Alpha") [] []
           eq_refl eq_refl).
Defined.

End RenderFacts.

Module OntologyMoreFacts.
Import AddOntologyMatches OntologySpec OntologyMore OntologyFacts.

(** *** One pass over an entity *)

Lemma label_loop_trace (target : string) (qres : list row) :
  ∀ e tr,
    for_each qres e (take_labels target) tr
    = (Ok (named_after qres e), tr ++ (row_line target <$> qres)).
Proof.
  induction qres as [|r qres IH]; intros e tr.
  - simpl. by rewrite app_nil_r.
  - simpl. rewrite bind_run. unfold take_labels at 1. rewrite bind_run.
    unfold emit. cbv zeta. unfold mret, M_ret. cbv beta iota.
    rewrite IH. f_equal.
    + f_equal. unfold named_after. destruct qres as [|r' qres]; [done|].
      rewrite last_cons_cons.
      destruct (last (r' :: qres)) as [r0|] eqn:Hlast; [done|].
      by apply last_None in Hlast.
    + by rewrite <- app_assoc.
Qed.

Lemma enrich_trace data g e target first_label rest tr :
  data !! iri e = Some target →
  label e = first_label :: rest →
  enrich data g e tr
  = (Ok (enriched data g e),
     tr ++ [Printed ("Found an ontology match for " +:+ iri e +:+ " with label "
                     +:+ first_label)]
        ++ (if bool_decide (1 < length (graph_query g (sparql_query target)))
            then [Warned ("More than one result for " +:+ target)]
            else [])
        ++ (row_line target <$> graph_query g (sparql_query target))).
Proof.
  intros Hdata Hlabel. unfold enrich, enriched. rewrite Hdata. simpl. rewrite Hlabel.
  rewrite !bind_run. unfold emit. simpl.
  destruct (bool_decide _); simpl;
    (etransitivity; [apply label_loop_trace|]); by rewrite <- !app_assoc.
Qed.

(** X15.  One pass over an entity of the mapping that has a label returns
    the entity with its match replaced by the one mapped IRI (whatever it was
    before), its identifier and labels as they were, and its name set to the
    preferred label of the last row of the lookup; with no row the name is
    left as it was.  It prints the match and one line for each row, and logs
    one warning exactly when the lookup has more than one row. *)
Theorem enrich_result data g e target first_label rest tr :
  data !! iri e = Some target →
  label e = first_label :: rest →
  ∃ e',
    enrich data g e tr
    = (Ok e',
       tr ++ [Printed ("Found an ontology match for " +:+ iri e +:+ " with label "
                       +:+ first_label)]
          ++ (if bool_decide (1 < length (graph_query g (sparql_query target)))
              then [Warned ("More than one result for " +:+ target)]
              else [])
          ++ (row_line target <$> graph_query g (sparql_query target)))
    ∧ iri e' = iri e
    ∧ label e' = label e
    ∧ exact_ontology_match e' = Some {[target]}
    ∧ name e' = match last (graph_query g (sparql_query target)) with
                | Some r => PyStr (prefLabel r)
                | None => name e
                end.
Proof.
  intros Hdata Hlabel. exists (enriched data g e).
  split; [by apply (enrich_trace _ _ _ _ _ rest)|].
  unfold enriched, named_after. rewrite Hdata.
  by destruct (last _).
Qed.

Lemma enrich_result_witness :
  ∃ e',
    enrich mapping ambiguous_graph electrode []
    = (Ok e',
       [] ++ [Printed ("Found an ontology match for " +:+ iri electrode +:+ " with label "
                       +:+ "Elektrode")]
          ++ (if bool_decide
                   (1 < length (graph_query ambiguous_graph (sparql_query electrode_iri)))
              then [Warned ("More than one result for " +:+ electrode_iri)]
              else [])
          ++ (row_line electrode_iri
                <$> graph_query ambiguous_graph (sparql_query electrode_iri)))
    ∧ iri e' = iri electrode
    ∧ label e' = label electrode
    ∧ exact_ontology_match e' = Some {[electrode_iri]}
    ∧ name e' = match last (graph_query ambiguous_graph (sparql_query electrode_iri)) with
                | Some r => PyStr (prefLabel r)
                | None => name electrode
                end.
Proof.
  exact (enrich_result mapping ambiguous_graph electrode electrode_iri "Elektrode" [] []
           eq_refl eq_refl).
Defined.

(** X16.  One pass fails in one case only: an entity that is not in the
    mapping is returned untouched, with nothing printed; an entity of the
    mapping without any label raises [IndexError] before anything is printed;
    so the pass returns exactly when the entity is not in the mapping or has a
    label. *)
Theorem enrich_outcomes data g e tr :
  (data !! iri e = None → enrich data g e tr = (Ok e, tr))
  ∧ (is_Some (data !! iri e) → label e = [] →
     enrich data g e tr = (Raised (IndexError "list index out of range"), tr))
  ∧ ((∃ e' tr', enrich data g e tr = (Ok e', tr')) ↔ can_enrich data e).
Proof.
  split; [|split].
  - intros Hdata. unfold enrich. by rewrite Hdata.
  - intros [target Hdata] Hlabel. unfold enrich. rewrite Hdata. simpl.
    by rewrite Hlabel.
  - unfold can_enrich. split.
    + intros (e' & tr' & Hrun).
      destruct (data !! iri e) as [target|] eqn:Hdata; [|by left]. right.
      intros Hlabel. unfold enrich in Hrun. rewrite Hdata in Hrun. simpl in Hrun.
      by rewrite Hlabel in Hrun.
    + intros [Hdata|Hlabel].
      * exists e, tr. unfold enrich. by rewrite Hdata.
      * destruct (data !! iri e) as [target|] eqn:Hdata.
        -- destruct (label e) as [|first_label rest] eqn:Hl; [done|].
           eexists _, _. by apply (enrich_trace data g e target first_label rest).
        -- exists e, tr. unfold enrich. by rewrite Hdata.
Qed.

(** *** The loop over all entities *)

Lemma enrich_enriched data g e tr :
  can_enrich data e →
  ∃ tr', enrich data g e tr = (Ok (enriched data g e), tr').
Proof.
  intros Hcan.
  destruct (data !! iri e) as [target|] eqn:Hdata.
  - destruct Hcan as [?|Hlabel]; [congruence|].
    destruct (label e) as [|first_label rest] eqn:Hl; [done|].
    eexists. by apply (enrich_trace data g e target first_label rest).
  - exists tr. unfold enrich, enriched. by rewrite Hdata.
Qed.

Lemma enrich_ok_enriched data g e tr e' tr' :
  enrich data g e tr = (Ok e', tr') → can_enrich data e ∧ e' = enriched data g e.
Proof.
  intros Hrun.
  assert (can_enrich data e) as Hcan.
  { unfold can_enrich. destruct (data !! iri e) as [target|] eqn:Hdata; [|by left].
    right. intros Hlabel. unfold enrich in Hrun. rewrite Hdata in Hrun.
    simpl in Hrun. by rewrite Hlabel in Hrun. }
  split; [done|].
  destruct (enrich_enriched data g e tr Hcan) as [tr1 Hrun1]. congruence.
Qed.

Lemma enriched_fields data g e :
  iri (enriched data g e) = iri e ∧ label (enriched data g e) = label e.
Proof.
  unfold enriched. destruct (data !! iri e); [|done].
  unfold named_after. by destruct (last _).
Qed.

Lemma enriched_again data g e : enriched data g (enriched data g e) = enriched data g e.
Proof.
  destruct (enriched_fields data g e) as [Hiri _].
  unfold enriched at 1. rewrite Hiri. unfold enriched.
  destruct (data !! iri e) as [target|]; [|done].
  by apply named_after_again.
Qed.

Lemma enrich_all_loop data g entities :
  ∀ done_ tr,
    Forall (can_enrich data) entities →
    ∃ tr',
      for_each entities done_ (λ done_ e, e' ← enrich data g e; mret (done_ ++ [e'])) tr
      = (Ok (done_ ++ (enriched data g <$> entities)), tr').
Proof.
  induction entities as [|e entities IH]; intros done_ tr Hall.
  - exists tr. simpl. by rewrite app_nil_r.
  - apply Forall_cons in Hall as [He Hall].
    destruct (enrich_enriched data g e tr He) as [tr1 Hrun].
    destruct (IH (done_ ++ [enriched data g e]) tr1 Hall) as [tr' Hrest].
    exists tr'. simpl. rewrite !bind_run, Hrun. simpl.
    rewrite Hrest. by rewrite <- app_assoc.
Qed.

Lemma enrich_all_loop_inv data g entities :
  ∀ done_ tr result tr',
    for_each entities done_ (λ done_ e, e' ← enrich data g e; mret (done_ ++ [e'])) tr
    = (Ok result, tr') →
    Forall (can_enrich data) entities
    ∧ result = done_ ++ (enriched data g <$> entities).
Proof.
  induction entities as [|e entities IH]; intros done_ tr result tr'.
  - simpl. intros [= <- _]. split; [constructor|by rewrite app_nil_r].
  - simpl. intros (acc & tr1 & Hstep & Hrest)%bind_ok_inv.
    apply bind_ok_inv in Hstep as (e' & tr2 & Hrun & [= <- <-]).
    apply enrich_ok_enriched in Hrun as [He ->].
    apply IH in Hrest as [Hall ->].
    split; [by constructor|by rewrite <- app_assoc].
Qed.

(** X17.  The loop over the entities returns exactly when every entity is
    outside the mapping or has a label; it then returns one entity for each
    entity given, in the same order and with the same identifier and labels,
    each as one pass leaves it. *)
Theorem enrich_all_pointwise data g entities tr :
  ((∃ result tr', enrich_all data g entities tr = (Ok result, tr'))
   ↔ Forall (can_enrich data) entities)
  ∧ ∀ result tr',
      enrich_all data g entities tr = (Ok result, tr') →
      result = enriched data g <$> entities
      ∧ length result = length entities
      ∧ iri <$> result = iri <$> entities
      ∧ label <$> result = label <$> entities.
Proof.
  unfold enrich_all. split; [split|].
  - intros (result & tr' & Hrun). by apply enrich_all_loop_inv in Hrun as [? _].
  - intros Hall. destruct (enrich_all_loop data g entities [] tr Hall) as [tr' Hrun].
    by eexists _, _.
  - intros result tr' Hrun. apply enrich_all_loop_inv in Hrun as [_ ->].
    simpl. split; [done|]. split; [by rewrite length_fmap|].
    rewrite <- !list_fmap_compose.
    split; apply list_fmap_ext; intros i e _; simpl; by destruct (enriched_fields data g e).
Qed.

(** X18.  Running the whole loop again changes nothing: when the loop over
    a list of entities returns, the loop over its result returns that same
    result. *)
Theorem enrich_all_idempotent data g entities tr result tr' :
  enrich_all data g entities tr = (Ok result, tr') →
  ∀ tr0, ∃ tr1, enrich_all data g result tr0 = (Ok result, tr1).
Proof.
  unfold enrich_all. intros [Hall ->]%enrich_all_loop_inv tr0. simpl.
  destruct (enrich_all_loop data g (enriched data g <$> entities) [] tr0) as [tr1 Hrun].
  - apply Forall_fmap. eapply Forall_impl; [exact Hall|].
    intros e. unfold can_enrich. simpl.
    destruct (enriched_fields data g e) as [-> ->]. done.
  - exists tr1. rewrite Hrun. simpl. f_equal. f_equal.
    rewrite <- list_fmap_compose. apply list_fmap_ext. intros i e _. simpl.
    apply enriched_again.
Qed.

Lemma enrich_all_idempotent_witness :
  ∃ tr1,
    enrich_all mapping small_graph [electrode_matched; separator] []
    = (Ok [electrode_matched; separator], tr1).
Proof.
  refine (enrich_all_idempotent mapping small_graph [electrode; separator] []
            [electrode_matched; separator] _ _ []).
  vm_compute. reflexivity.
Defined.

End OntologyMoreFacts.
